(** * The Unikraft console registry (lib/ukconsole/console.c) and the NS16550
    transmit path (drivers/uktty/ns16550/ns16550.c), as a shallow embedding.

    Conventions of the embedding:
    - C integers are [Z]; every conversion between integer types that the
      source performs is written out ([to_u16], [to_ssz]).
    - A [struct uk_console *] is an optional address ([None] is [__NULL]); the
      device objects live in a store owned by the drivers, and the registry
      links them by address, as the intrusive list of the source does.
    - A [char *] is an optional offset into the caller's byte array.
    - Dereferencing a null or dangling pointer, and a failed [UK_ASSERT], have
      no defined result: the embedding returns [None] there. *)

From Stdlib Require Import ZArith Lia.
From Stdlib.Strings Require Import Byte.
From stdpp Require Import base option list gmap strings.

Local Open Scope Z_scope.

(** ** Target parameters

    The widths and constants below come from headers that are not part of the
    verified sources ([uk/arch/types.h], [uk/console/driver.h], [errno.h]);
    they are parameters of the development. *)

Class Target := {
  (** width in bits of [__sz] and [__ssz] *)
  SZ_BITS : Z;
  UK_CONSOLE_FLAG_STDOUT : Z;
  UK_CONSOLE_FLAG_STDIN : Z;
  EINVAL : Z;
  SZ_BITS_pos : 0 < SZ_BITS;
  FLAG_STDOUT_nonzero : UK_CONSOLE_FLAG_STDOUT ≠ 0;
  FLAG_STDIN_nonzero : UK_CONSOLE_FLAG_STDIN ≠ 0;
  EINVAL_pos : 0 < EINVAL
}.

(** ** Integer types *)

(** Conversion to [__u16]. *)
Definition to_u16 (x : Z) : Z := x mod 2 ^ 16.

(** Largest value of [__ssz]. *)
Definition SSZ_MAX `{Target} : Z := 2 ^ (SZ_BITS - 1) - 1.

(** Conversion of an [__sz] value to [__ssz] (two's complement). *)
Definition to_ssz `{Target} (x : Z) : Z :=
  let y := x mod 2 ^ SZ_BITS in
  if y <? 2 ^ (SZ_BITS - 1) then y else y - 2 ^ SZ_BITS.

(** ** Devices *)

(** Address of a [struct uk_console]. *)
Definition loc := positive.

(** The two capabilities of [struct uk_console_ops]. A device function runs
    against the state [Env] of the world outside the registry.  [out] is given
    the bytes found at [buf]; [in] returns, with its result, the bytes it
    stored at [buf]. *)
Definition uk_console_out_func (Env : Type) : Type :=
  loc → list byte → Z → Env → Z * Env.
Definition uk_console_in_func (Env : Type) : Type :=
  loc → Z → Env → (Z * list byte) * Env.

Record uk_console_ops (Env : Type) := {
  ops_out : option (uk_console_out_func Env);
  ops_in : option (uk_console_in_func Env)
}.
Arguments ops_out {Env} _.
Arguments ops_in {Env} _.

Record uk_console (Env : Type) := {
  dev_name : string;
  dev_ops : option (uk_console_ops Env);
  dev_flags : Z;
  dev_id : Z
}.
Arguments dev_name {Env} _.
Arguments dev_ops {Env} _.
Arguments dev_flags {Env} _.
Arguments dev_id {Env} _.

(** ** Registry state: the three file-scope variables of console.c, together
    with the store of device objects they point into. *)
Record registry (Env : Type) := {
  objs : gmap loc (uk_console Env);
  uk_console_device_list : list loc;
  uk_console_device_count : Z;
  uk_console_set_standard_once : Z
}.
Arguments objs {Env} _.
Arguments uk_console_device_list {Env} _.
Arguments uk_console_device_count {Env} _.
Arguments uk_console_set_standard_once {Env} _.

(** The state at kernel start: empty list, zeroed statics. *)
Definition registry_init {Env} (store : gmap loc (uk_console Env)) : registry Env :=
  {| objs := store;
     uk_console_device_list := [];
     uk_console_device_count := 0;
     uk_console_set_standard_once := 0 |}.

(** ** Calls into devices, and the world they act on *)

Inductive op := OUT | IN.

(** One invocation of a device function: which capability, of which device,
    with which [buf] (offset) and [len], and what it returned. *)
Record call := Call {
  call_op : op;
  call_dev : loc;
  call_buf : nat;
  call_len : Z;
  call_ret : Z
}.

(** The arguments of a call, without its result. *)
Definition call_args (c : call) : op * loc * nat * Z :=
  (call_op c, call_dev c, call_buf c, call_len c).

Record world (Env : Type) := {
  env : Env;
  mem : list byte;
  calls : list call
}.
Arguments env {Env} _.
Arguments mem {Env} _.
Arguments calls {Env} _.

(** Computations that use the world and may be undefined. *)
Definition io (Env A : Type) : Type := world Env → option (A * world Env).

Definition io_ret {Env A} (a : A) : io Env A := λ w, Some (a, w).

Definition io_bind {Env A B} (m : io Env A) (k : A → io Env B) : io Env B :=
  λ w, match m w with
       | Some (a, w') => k a w'
       | None => None
       end.

(** Undefined behaviour. *)
Definition io_undef {Env A} : io Env A := λ _, None.

Notation "x <- m ;; k" := (io_bind m (λ x, k))
  (at level 100, m at next level, right associativity).
Notation "m ;;; k" := (io_bind m (λ _, k))
  (at level 100, right associativity).

Section Console.
Context {T : Target} {Env : Type}.

(** [*dev] for a non-null [dev]. *)
Definition deref (r : registry Env) (dev : loc) : io Env (uk_console Env) :=
  λ w, match objs r !! dev with
       | Some d => Some (d, w)
       | None => None
       end.

(** [*dev->ops]. *)
Definition deref_ops (d : uk_console Env) : io Env (uk_console_ops Env) :=
  match dev_ops d with
  | Some o => io_ret o
  | None => io_undef
  end.

(** [dev->flags & flag], as a C truth value. *)
Definition flag_set (d : uk_console Env) (flag : Z) : bool :=
  negb (Z.land (dev_flags d) flag =? 0).

(** [dev->ops->out(dev, buf, len)]: the device reads the [len] bytes at [buf]. *)
Definition call_out (dev : loc) (f : uk_console_out_func Env)
    (buf : nat) (len : Z) : io Env Z :=
  λ w, let '(rc, e) := f dev (take (Z.to_nat len) (drop buf (mem w))) len (env w) in
       Some (rc, {| env := e;
                    mem := mem w;
                    calls := calls w ++ [Call OUT dev buf len rc] |}).

(** [dev->ops->in(dev, buf, len)]: the device stores bytes at [buf], never
    past [buf + len] nor past the end of the array. *)
Definition call_in (dev : loc) (f : uk_console_in_func Env)
    (buf : nat) (len : Z) : io Env Z :=
  λ w, let '(rc, data, e) := f dev len (env w) in
       Some (rc, {| env := e;
                    mem := list_inserts buf (take (Z.to_nat len) data) (mem w);
                    calls := calls w ++ [Call IN dev buf len rc] |}).

(** ** console.c *)

Definition uk_console_count (r : registry Env) : Z :=
  uk_console_device_count r.

Definition uk_console_out_direct (r : registry Env) (dev : option loc)
    (buf : option nat) (len : Z) : io Env Z :=
  if len =? 0 then io_ret 0
  else
    match buf, dev with
    | None, _ => io_ret (- EINVAL)
    | Some _, None => io_ret (- EINVAL)
    | Some b, Some l =>
        d <- deref r l;;
        match dev_ops d with
        | None => io_ret (- EINVAL)
        | Some o =>
            match ops_out o with
            | None => io_ret (- EINVAL)
            | Some f => call_out l f b len
            end
        end
    end.

Definition uk_console_in_direct (r : registry Env) (dev : option loc)
    (buf : option nat) (len : Z) : io Env Z :=
  if len =? 0 then io_ret 0
  else
    match buf, dev with
    | None, _ => io_ret (- EINVAL)
    | Some _, None => io_ret (- EINVAL)
    | Some b, Some l =>
        d <- deref r l;;
        match dev_ops d with
        | None => io_ret (- EINVAL)
        | Some o =>
            match ops_in o with
            | None => io_ret (- EINVAL)
            | Some f => call_in l f b len
            end
        end
    end.

(** The loop of [uk_console_out] over the devices still to visit. *)
Fixpoint uk_console_out_loop (r : registry Env) (l : list loc)
    (buf : option nat) (len : Z) : io Env unit :=
  match l with
  | [] => io_ret tt
  | dev :: l' =>
      d <- deref r dev;;
      (if flag_set d UK_CONSOLE_FLAG_STDOUT then
         o <- deref_ops d;;
         if ops_out o is Some _ then uk_console_out_direct r (Some dev) buf len ;;; io_ret tt
         else io_ret tt
       else io_ret tt) ;;;
      uk_console_out_loop r l' buf len
  end.

Definition uk_console_out (r : registry Env) (buf : option nat) (len : Z) : io Env Z :=
  if len =? 0 then io_ret 0
  else
    match buf with
    | None => io_ret (- EINVAL)
    | Some _ =>
        uk_console_out_loop r (uk_console_device_list r) buf len ;;;
        io_ret (to_ssz len)
    end.

(** The loop of [uk_console_in] over the devices still to visit, from the
    current values of [buf] and [leftover]; it yields the final [leftover]. *)
Fixpoint uk_console_in_loop (r : registry Env) (l : list loc)
    (buf : nat) (leftover : Z) : io Env Z :=
  match l with
  | [] => io_ret leftover
  | dev :: l' =>
      d <- deref r dev;;
      if flag_set d UK_CONSOLE_FLAG_STDIN then
        o <- deref_ops d;;
        if ops_in o is Some _ then
          rc <- uk_console_in_direct r (Some dev) (Some buf) leftover;;
          let accept := (0 <=? rc) && (rc <=? leftover) in
          let leftover' := if accept then leftover - rc else leftover in
          let buf' := if accept then (buf + Z.to_nat rc)%nat else buf in
          if leftover' =? 0 then io_ret leftover'
          else uk_console_in_loop r l' buf' leftover'
        else uk_console_in_loop r l' buf leftover
      else uk_console_in_loop r l' buf leftover
  end.

Definition uk_console_in (r : registry Env) (buf : option nat) (len : Z) : io Env Z :=
  if len =? 0 then io_ret 0
  else
    match buf with
    | None => io_ret (- EINVAL)
    | Some b =>
        leftover <- uk_console_in_loop r (uk_console_device_list r) b len;;
        io_ret (to_ssz (len - leftover))
    end.

(** [uk_console_register]. The three assertions of the source are the three
    ways the result can be undefined. *)
Definition uk_console_register (dev : option loc) (r : registry Env) : option (registry Env) :=
  match dev with
  | None => None
  | Some l =>
      match objs r !! l with
      | None => None
      | Some d =>
          if dev_ops d is Some _ then
            if decide (l ∈ uk_console_device_list r) then None
            else
              let once := if dev_flags d =? 0
                          then uk_console_set_standard_once r else 1 in
              let promote :=
                (once =? 0) &&
                (Z.land (dev_flags d)
                   (Z.lor UK_CONSOLE_FLAG_STDOUT UK_CONSOLE_FLAG_STDIN) =? 0) in
              let d' :=
                {| dev_name := dev_name d;
                   dev_ops := dev_ops d;
                   dev_flags :=
                     if promote
                     then Z.lor (dev_flags d)
                            (Z.lor UK_CONSOLE_FLAG_STDOUT UK_CONSOLE_FLAG_STDIN)
                     else dev_flags d;
                   dev_id := uk_console_device_count r |} in
              Some {| objs := <[l := d']> (objs r);
                      uk_console_device_list := uk_console_device_list r ++ [l];
                      uk_console_device_count :=
                        to_u16 (uk_console_device_count r + 1);
                      uk_console_set_standard_once :=
                        if promote then 1 else once |}
          else None
      end
  end.

(** A sequence of registrations, in order. *)
Fixpoint register_all (devs : list loc) (r : registry Env) : option (registry Env) :=
  match devs with
  | [] => Some r
  | dev :: devs' =>
      match uk_console_register (Some dev) r with
      | Some r' => register_all devs' r'
      | None => None
      end
  end.

End Console.

(** ** Views of a registry used to state the properties *)

Section Views.
Context {T : Target} {Env : Type}.

(** [buf] points at [len] bytes inside the caller's array; the array is an
    object, so its size is within [__ssz]. *)
Definition valid_buffer (w : world Env) (buf : option nat) (len : Z) : Prop :=
  ∃ b, buf = Some b ∧ 0 ≤ len ∧
       Z.of_nat b + len ≤ Z.of_nat (length (mem w)) ∧
       Z.of_nat (length (mem w)) ≤ SSZ_MAX.

(** Every listed address points at a device object with a contract, and no
    device is linked twice: what [uk_console_register] asserts on entry. *)
Definition wf_registry (r : registry Env) : Prop :=
  NoDup (uk_console_device_list r) ∧
  ∀ l, l ∈ uk_console_device_list r →
       ∃ d, objs r !! l = Some d ∧ is_Some (dev_ops d).

(** A device flagged [UK_CONSOLE_FLAG_STDOUT] that has an [out] capability. *)
Definition stdout_target (r : registry Env) (l : loc)
    : option (loc * uk_console_out_func Env) :=
  match objs r !! l with
  | Some d =>
      if flag_set d UK_CONSOLE_FLAG_STDOUT then
        match dev_ops d with
        | Some o => match ops_out o with Some f => Some (l, f) | None => None end
        | None => None
        end
      else None
  | None => None
  end.

(** A device flagged [UK_CONSOLE_FLAG_STDIN] that has an [in] capability. *)
Definition stdin_source (r : registry Env) (l : loc)
    : option (loc * uk_console_in_func Env) :=
  match objs r !! l with
  | Some d =>
      if flag_set d UK_CONSOLE_FLAG_STDIN then
        match dev_ops d with
        | Some o => match ops_in o with Some f => Some (l, f) | None => None end
        | None => None
        end
      else None
  | None => None
  end.

(** Both, in registration order. *)
Definition stdout_targets (r : registry Env) : list (loc * uk_console_out_func Env) :=
  omap (stdout_target r) (uk_console_device_list r).
Definition stdin_sources (r : registry Env) : list (loc * uk_console_in_func Env) :=
  omap (stdin_source r) (uk_console_device_list r).

(** The bytes of the buffer [buf], [len]. *)
Definition buffer_bytes (w : world Env) (buf : nat) (len : Z) : list byte :=
  take (Z.to_nat len) (drop buf (mem w)).

(** Handing the bytes [bs] and their number [len] to each target in turn. *)
Definition deliver (targets : list (loc * uk_console_out_func Env))
    (bs : list byte) (len : Z) (e : Env) : Env :=
  foldl (λ e t, (t.2 t.1 bs len e).2) e targets.

(** A device whose [in] returns the bytes it has: the result is the number of
    bytes stored, between 0 and the amount asked for. *)
Definition returns_available (f : uk_console_in_func Env) : Prop :=
  ∀ l len e, 0 < len →
    0 ≤ (f l len e).1.1 ≤ len ∧
    Z.of_nat (length (f l len e).1.2) = (f l len e).1.1.

(** The aggregate read as the specification words it: visit the sources in
    order, let each fill what is left of the buffer, stop once nothing is
    left.  The unfilled suffix starts at [pos] and has [space] bytes.  The
    result is the bytes obtained, the requests made (device, position and
    size of the unfilled suffix) and the state of the world outside. *)
Fixpoint read_aggregate (srcs : list (loc * uk_console_in_func Env))
    (pos : nat) (space : Z) (e : Env)
    : list byte * list (loc * nat * Z) * Env :=
  match srcs with
  | [] => ([], [], e)
  | (l, f) :: rest =>
      let '(n, data, e1) := f l space e in
      if space - n =? 0 then (data, [(l, pos, space)], e1)
      else
        let '(more, reqs, e2) :=
          read_aggregate rest (pos + length data)%nat (space - n) e1 in
        (data ++ more, (l, pos, space) :: reqs, e2)
  end.

(** A device that has no data: its [in] returns 0. *)
Definition no_data (f : uk_console_in_func Env) : Prop :=
  ∀ l len e, (f l len e).1.1 = 0.

(** What one [in] call adds to the total of [uk_console_in]. *)
Definition accepted (c : call) : Z :=
  if (0 <=? call_ret c) && (call_ret c <=? call_len c) then call_ret c else 0.

Definition sum_accepted (cs : list call) : Z :=
  foldr (λ c acc, accepted c + acc) 0 cs.

(** The calls [cs] are what a run over the sources [devs] makes, starting at
    [buf] with [leftover] bytes to fill, given what each call returned: one
    call per source in order, each for the whole of what is left, the
    position moving by what was accepted, and nothing after the buffer is
    full. *)
Fixpoint in_trace (devs : list loc) (buf : nat) (leftover : Z)
    (cs : list call) : Prop :=
  match devs, cs with
  | [], [] => True
  | dev :: devs', c :: cs' =>
      call_args c = (IN, dev, buf, leftover) ∧
      (if leftover - accepted c =? 0 then cs' = []
       else in_trace devs' (buf + Z.to_nat (accepted c))%nat
              (leftover - accepted c) cs')
  | _, _ => False
  end.

(** [dev] points at a device whose [ops] is null. *)
Definition null_ops (r : registry Env) (dev : option loc) : Prop :=
  ∃ l d, dev = Some l ∧ objs r !! l = Some d ∧ dev_ops d = None.

(** [dev] points at a device whose contract lacks the capability [cap]. *)
Definition lacks {F} (cap : uk_console_ops Env → option F)
    (r : registry Env) (dev : option loc) : Prop :=
  ∃ l d o, dev = Some l ∧ objs r !! l = Some d ∧
           dev_ops d = Some o ∧ cap o = None.

(** [dev] is linked into the registry. *)
Definition registered (r : registry Env) (dev : option loc) : Prop :=
  ∃ l, dev = Some l ∧ l ∈ uk_console_device_list r.

(** The three statements of the specification that the code does not
    satisfy, as the specification has them; they are refuted below. *)

(** A negative result ends the aggregate read: the failing call is the last
    one, and what was accumulated before it is returned. *)
Definition in_aborts_on_negative (r : registry Env) (buf : nat) (len : Z)
    (w : world Env) : Prop :=
  ∀ rc w' new,
    uk_console_in r (Some buf) len w = Some (rc, w') →
    calls w' = calls w ++ new →
    ∀ i c, new !! i = Some c → call_ret c < 0 →
      length new = S i ∧ rc = sum_accepted (take i new).

(** Direct output is refused, with no device called, exactly when an argument
    is null, a capability is missing, or the device is not registered. *)
Definition out_direct_checks_registration (r : registry Env)
    (dev : option loc) (buf : option nat) (len : Z) (w : world Env) : Prop :=
  uk_console_out_direct r dev buf len w = Some (- EINVAL, w) ↔
  buf = None ∨ dev = None ∨ null_ops r dev ∨ lacks ops_out r dev ∨
  ¬ registered r dev.

(** After each of any number of registrations the count is the number of
    devices registered so far, and the ids are 0, 1, 2, ... in order. *)
Definition ids_and_count_unbounded (store : gmap loc (uk_console Env))
    (devs : list loc) : Prop :=
  ∀ k, (k ≤ length devs)%nat →
    ∃ rk,
      register_all (take k devs) (registry_init store) = Some rk ∧
      uk_console_count rk = Z.of_nat k ∧
      ∀ i dev, (i < k)%nat → devs !! i = Some dev →
        ∃ d', objs rk !! dev = Some d' ∧ dev_id d' = Z.of_nat i.

End Views.

(** ** ns16550.c: the transmit path *)

Definition NS16550_THR_OFFSET : Z := 0x00.
Definition NS16550_LCR_OFFSET : Z := 0x03.
Definition NS16550_LSR_OFFSET : Z := 0x05.
Definition NS16550_LCR_DLAB : Z := 0x80.
Definition NS16550_LSR_TX_EMPTY : Z := 0x40.

(** Conversion to [__u32]. *)
Definition to_u32 (x : Z) : Z := x mod 2 ^ 32.

(** The value of a [char] as an [int]; whether [char] is signed depends on
    the architecture. *)
Definition char_to_int (char_signed : bool) (a : byte) : Z :=
  let n := Z.of_N (Byte.to_N a) in
  if char_signed && (128 <=? n) then n - 256 else n.

(** The value of a byte on the wire. *)
Definition byte_val (a : byte) : Z := Z.of_N (Byte.to_N a).

(** The device: the hardware behind the register window, and the register
    writes made so far (offset, value), oldest first. *)
Record ns16550_device (HW : Type) := {
  hw : HW;
  written : list (Z * Z)
}.
Arguments hw {HW} _.
Arguments written {HW} _.

(** The values stored into the transmit holding register, oldest first. *)
Definition transmitted {HW} (dev : ns16550_device HW) : list Z :=
  (List.filter (λ p, p.1 =? NS16550_THR_OFFSET) (written dev)).*2.

(** Host-to-device newline translation, as the specification words it: a
    line feed is preceded by a carriage return, other bytes are unchanged. *)
Definition crlf (bs : list byte) : list byte :=
  flat_map (λ a, if Byte.eqb a "010"%byte then ["013"%byte; a] else [a]) bs.

Section Driver.
Context {T : Target} {HW : Type}.

(** The register accessors [ns16550_io_read] and [ns16550_io_write] belong to
    the platform; the hardware they reach is a parameter. *)
Variable io_read : Z → HW → Z * HW.
Variable io_write : Z → Z → HW → HW.
Variable char_signed : bool.

Definition ns16550_io_read (offset : Z) (dev : ns16550_device HW)
    : Z * ns16550_device HW :=
  let '(v, h) := io_read offset (hw dev) in
  (v, {| hw := h; written := written dev |}).

Definition ns16550_io_write (offset value : Z) (dev : ns16550_device HW)
    : ns16550_device HW :=
  {| hw := io_write offset value (hw dev);
     written := written dev ++ [(offset, value)] |}.

(** The busy-wait of [_putc], polling the line status register at most
    [fuel] times; [None] when the transmitter is still busy after that. *)
Fixpoint wait_tx_empty (fuel : nat) (dev : ns16550_device HW)
    : option (ns16550_device HW) :=
  match fuel with
  | O => None
  | S fuel' =>
      let '(lsr, dev') := ns16550_io_read NS16550_LSR_OFFSET dev in
      if Z.land lsr NS16550_LSR_TX_EMPTY =? 0
      then wait_tx_empty fuel' dev'
      else Some dev'
  end.

Definition _putc (fuel : nat) (a : byte) (dev : ns16550_device HW)
    : option (ns16550_device HW) :=
  match wait_tx_empty fuel dev with
  | None => None
  | Some dev1 =>
      let '(lcr, dev2) := ns16550_io_read NS16550_LCR_OFFSET dev1 in
      let dev3 :=
        ns16550_io_write NS16550_LCR_OFFSET
          (Z.land lcr (to_u32 (Z.lnot NS16550_LCR_DLAB))) dev2 in
      Some (ns16550_io_write NS16550_THR_OFFSET
              (Z.land (char_to_int char_signed a) 0xff) dev3)
  end.

Definition ns16550_putc (fuel : nat) (a : byte) (dev : ns16550_device HW)
    : option (ns16550_device HW) :=
  if char_to_int char_signed a =? 10 then
    match _putc fuel "013"%byte dev with
    | None => None
    | Some dev' => _putc fuel a dev'
    end
  else _putc fuel a dev.

(** The loop [while (l--) ns16550_putc(dev, *buf++)]; reading past the end of
    the array at [buf] is undefined. *)
Fixpoint ns16550_out_loop (fuel : nat) (buf : list byte) (l : nat)
    (dev : ns16550_device HW) {struct l} : option (ns16550_device HW) :=
  match l with
  | O => Some dev
  | S l' =>
      match buf with
      | [] => None
      | a :: buf' =>
          match ns16550_putc fuel a dev with
          | None => None
          | Some dev' => ns16550_out_loop fuel buf' l' dev'
          end
      end
  end.

Definition ns16550_out (fuel : nat) (buf : option (list byte)) (len : Z)
    (dev : ns16550_device HW) : option (Z * ns16550_device HW) :=
  match buf with
  | None => None
  | Some bs =>
      match ns16550_out_loop fuel bs (Z.to_nat len) dev with
      | None => None
      | Some dev' => Some (to_ssz len, dev')
      end
  end.

(** The transmitter drains: from every state, polling the line status
    register finds it empty after finitely many reads. *)
Definition tx_drains : Prop :=
  ∀ dev, ∃ fuel, is_Some (wait_tx_empty fuel dev).

End Driver.

(** ** A concrete target and concrete devices, to run the model on *)

(** A 64-bit target; the two flags are distinct bits. *)
Definition lp64 : Target :=
  {| SZ_BITS := 64;
     UK_CONSOLE_FLAG_STDOUT := 1;
     UK_CONSOLE_FLAG_STDIN := 2;
     EINVAL := 22;
     SZ_BITS_pos := eq_refl;
     FLAG_STDOUT_nonzero := ltac:(discriminate);
     FLAG_STDIN_nonzero := ltac:(discriminate);
     EINVAL_pos := eq_refl |}.

(** The world outside: for each device, the input bytes it has pending. *)

(** A device input that hands over what is pending, up to [len] bytes. *)
Definition ex_in : uk_console_in_func (gmap loc (list byte)) :=
  λ l len e,
    let avail := default [] (e !! l) in
    let got := take (Z.to_nat len) avail in
    ((Z.of_nat (length got), got), <[l := drop (Z.to_nat len) avail]> e).

(** A device input that always reports an error. *)
Definition ex_in_failing : uk_console_in_func (gmap loc (list byte)) :=
  λ l len e, ((-1, []), e).

(** A device output that accepts one byte of whatever it is given. *)
Definition ex_out : uk_console_out_func (gmap loc (list byte)) :=
  λ l bs len e, (1, e).

Definition ex_ops : uk_console_ops (gmap loc (list byte)) :=
  {| ops_out := Some ex_out; ops_in := Some ex_in |}.

Definition ex_ops_failing : uk_console_ops (gmap loc (list byte)) :=
  {| ops_out := Some ex_out; ops_in := Some ex_in_failing |}.

Definition ex_dev (o : uk_console_ops (gmap loc (list byte))) (flags : Z)
    : uk_console (gmap loc (list byte)) :=
  {| dev_name := "tty"; dev_ops := Some o; dev_flags := flags; dev_id := 0 |}.

(** Four device objects: A at 1 without flags, B at 2 flagged for both
    streams, C at 3 and D at 4 without flags. *)
Definition ex_store : gmap loc (uk_console (gmap loc (list byte))) :=
  {[ 1%positive := ex_dev ex_ops 0;
     2%positive := ex_dev ex_ops 3;
     3%positive := ex_dev ex_ops 0;
     4%positive := ex_dev ex_ops 0 ]}.

(** The same, with an A whose input fails. *)
Definition ex_store_failing : gmap loc (uk_console (gmap loc (list byte))) :=
  {[ 1%positive := ex_dev ex_ops_failing 0;
     2%positive := ex_dev ex_ops 3;
     3%positive := ex_dev ex_ops 0;
     4%positive := ex_dev ex_ops 0 ]}.

(** A, B and C registered in that order; D is not. *)
Definition ex_devs : list loc := [1%positive; 2%positive; 3%positive].

Definition ex_registry : registry (gmap loc (list byte)) :=
  default (registry_init ex_store)
    (register_all (T := lp64) ex_devs (registry_init ex_store)).

Definition ex_registry_failing : registry (gmap loc (list byte)) :=
  default (registry_init ex_store_failing)
    (register_all (T := lp64) ex_devs (registry_init ex_store_failing)).

(** A has "ab" pending, B has "cdefg"; the caller's array holds "hi\n" and
    seven more bytes. *)
Definition ex_world : world (gmap loc (list byte)) :=
  {| env := {[ 1%positive := ["a"; "b"]%byte;
               2%positive := ["c"; "d"; "e"; "f"; "g"]%byte ]};
     mem := ["h"; "i"; "010"; "."; "."; "."; "."; "."; "."; "."]%byte;
     calls := [] |}.

(** No device has anything pending. *)
Definition ex_world_idle : world (gmap loc (list byte)) :=
  {| env := ∅;
     mem := ["."; "."; "."; "."; "."; "."; "."; "."; "."; "."]%byte;
     calls := [] |}.

(** 65537 device addresses, and a store with a device object at each. *)
Definition ex_many : list loc := Pos.of_succ_nat <$> seq 0 (Z.to_nat 65537).

Definition ex_many_store : gmap loc (uk_console (gmap loc (list byte))) :=
  gset_to_gmap (ex_dev ex_ops 0) (list_to_set ex_many).

(** A transmitter that is busy for two polls after each byte stored; its
    state is the number of polls left until it reports empty. *)
Definition ex_io_read (offset : Z) (h : nat) : Z * nat :=
  if offset =? NS16550_LSR_OFFSET then
    match h with
    | O => (0x60, O)
    | S h' => (0x00, h')
    end
  else (0x03, h).

Definition ex_io_write (offset value : Z) (h : nat) : nat :=
  if offset =? NS16550_THR_OFFSET then 2%nat else h.

Definition ex_uart : ns16550_device nat := {| hw := 2%nat; written := [] |}.

(** ** console.c: lookup by id, and views of the traffic *)

Section ConsoleMore.
Context {T : Target} {Env : Type}.

(** The loop of [uk_console_get] over the devices still to visit: the first
    one whose id is [id], or [__NULL] when the list is exhausted. *)
Fixpoint uk_console_get_from (r : registry Env) (l : list loc) (id : Z)
    : option (option loc) :=
  match l with
  | [] => Some None
  | dev :: l' =>
      match objs r !! dev with
      | None => None
      | Some d =>
          if dev_id d =? id then Some (Some dev)
          else uk_console_get_from r l' id
      end
  end.

Definition uk_console_get (r : registry Env) (id : Z) : option (option loc) :=
  uk_console_get_from r (uk_console_device_list r) id.

(** A direct write to each device of [devs] in turn, the results dropped. *)
Fixpoint out_direct_each (r : registry Env) (devs : list loc)
    (buf : option nat) (len : Z) : io Env unit :=
  match devs with
  | [] => io_ret tt
  | dev :: devs' =>
      uk_console_out_direct r (Some dev) buf len ;;;
      out_direct_each r devs' buf len
  end.

(** The call [c] asks an [in] for a non-empty piece of the buffer [buf],
    [len] that reaches to its end. *)
Definition suffix_request (buf : nat) (len : Z) (c : call) : Prop :=
  call_op c = IN ∧ 0 < call_len c ∧
  Z.of_nat (call_buf c) + call_len c = Z.of_nat buf + len.

End ConsoleMore.

(** ** ns16550.c: the receive path and the configuration *)

Definition NS16550_RBR_OFFSET : Z := 0x00.
Definition NS16550_DLL_OFFSET : Z := 0x00.
Definition NS16550_IER_OFFSET : Z := 0x01.
Definition NS16550_DLM_OFFSET : Z := 0x00.
Definition NS16550_FCR_OFFSET : Z := 0x02.
Definition NS16550_LCR_WL : Z := 0x03.
Definition NS16550_LCR_STOP : Z := 0x04.
Definition NS16550_LCR_PARITY : Z := 0x38.
Definition NS16550_LCR_8N1 : Z := 0x03.
Definition NS16550_DLL_115200 : Z := 0x01.
Definition NS16550_DLM_115200 : Z := 0x00.
Definition NS16550_IIR_NO_INT : Z := 0x01.
Definition NS16550_FCR_FIFO_EN : Z := 0x01.
Definition NS16550_LSR_RX_EMPTY : Z := 0x01.

(** The conversion [(char)rc] of an [int], as the byte it leaves in memory. *)
Definition char_of_int (v : Z) : byte :=
  default "000"%byte (Byte.of_N (Z.to_N (v mod 256))).

(** The stores [ws] come in pairs: one to the line control register with
    DLAB clear, then one to offset 0. *)
Definition thr_guarded (ws : list (Z * Z)) : Prop :=
  ∃ ps : list (Z * Z),
    ws = flat_map (λ p, [(NS16550_LCR_OFFSET, p.1); (NS16550_THR_OFFSET, p.2)]) ps ∧
    Forall (λ p, Z.land p.1 NS16550_LCR_DLAB = 0) ps.

(** Every store of [ws] is to the line control register, with DLAB clear. *)
Definition lcr_clears_dlab (ws : list (Z * Z)) : Prop :=
  Forall (λ p, p.1 = NS16550_LCR_OFFSET ∧ Z.land p.2 NS16550_LCR_DLAB = 0) ws.

(** The number of line feeds among [bs]. *)
Definition line_feeds (bs : list byte) : nat :=
  length (List.filter (λ a, Byte.eqb a "010"%byte) bs).

Section DriverMore.
Context {T : Target} {HW : Type}.
Variable io_read : Z → HW → Z * HW.
Variable io_write : Z → Z → HW → HW.

Definition ns16550_getc (dev : ns16550_device HW) : Z * ns16550_device HW :=
  let '(lsr, dev1) := ns16550_io_read io_read NS16550_LSR_OFFSET dev in
  if Z.land lsr NS16550_LSR_RX_EMPTY =? 0 then (-1, dev1)
  else
    let '(lcr, dev2) := ns16550_io_read io_read NS16550_LCR_OFFSET dev1 in
    let dev3 :=
      ns16550_io_write io_write NS16550_LCR_OFFSET
        (Z.land lcr (to_u32 (Z.lnot NS16550_LCR_DLAB))) dev2 in
    let '(rbr, dev4) := ns16550_io_read io_read NS16550_RBR_OFFSET dev3 in
    (Z.land rbr 0xff, dev4).

(** The loop of [ns16550_in] with [n] iterations left, at index [i]; it
    yields the result and the bytes stored at [buf + i] onwards. *)
Fixpoint ns16550_in_loop (n : nat) (i len : Z) (dev : ns16550_device HW)
    : Z * list byte * ns16550_device HW :=
  match n with
  | O => (to_ssz len, [], dev)
  | S n' =>
      let '(rc, dev1) := ns16550_getc dev in
      if rc <? 0 then (to_ssz i, [], dev1)
      else
        let '(r, data, dev2) := ns16550_in_loop n' (i + 1) len dev1 in
        (r, char_of_int rc :: data, dev2)
  end.

(** [ns16550_in], as an [in] capability over the state of the device. *)
Definition ns16550_in : uk_console_in_func (ns16550_device HW) :=
  λ con len dev, ns16550_in_loop (Z.to_nat len) 0 len dev.

Definition ns16550_configure (dev : ns16550_device HW)
    : Z * ns16550_device HW :=
  let '(v1, dev) := ns16550_io_read io_read NS16550_LCR_OFFSET dev in
  let dev :=
    ns16550_io_write io_write NS16550_LCR_OFFSET
      (Z.land v1 (to_u32 (Z.lnot NS16550_LCR_DLAB))) dev in
  let '(v2, dev) := ns16550_io_read io_read NS16550_FCR_OFFSET dev in
  let dev :=
    ns16550_io_write io_write NS16550_IER_OFFSET
      (Z.land v2 (to_u32 (Z.lnot NS16550_IIR_NO_INT))) dev in
  let '(v3, dev) := ns16550_io_read io_read NS16550_FCR_OFFSET dev in
  let dev :=
    ns16550_io_write io_write NS16550_FCR_OFFSET
      (Z.land v3 (to_u32 (Z.lnot NS16550_FCR_FIFO_EN))) dev in
  let '(v4, dev) := ns16550_io_read io_read NS16550_LCR_OFFSET dev in
  let lcr :=
    to_u32 (Z.lor v4
              (to_u32 (Z.lnot (Z.lor (Z.lor NS16550_LCR_WL NS16550_LCR_STOP)
                                 NS16550_LCR_PARITY)))) in
  let lcr := Z.lor lcr NS16550_LCR_8N1 in
  let dev := ns16550_io_write io_write NS16550_LCR_OFFSET lcr dev in
  let '(v5, dev) := ns16550_io_read io_read NS16550_LCR_OFFSET dev in
  let dev :=
    ns16550_io_write io_write NS16550_LCR_OFFSET
      (Z.land v5 (to_u32 (Z.lnot NS16550_LCR_DLAB))) dev in
  let dev := ns16550_io_write io_write NS16550_DLL_OFFSET NS16550_DLL_115200 dev in
  let dev := ns16550_io_write io_write NS16550_DLM_OFFSET NS16550_DLM_115200 dev in
  (0, dev).

(** The transmitter never reports empty. *)
Definition tx_stuck : Prop :=
  ∀ h, Z.land (io_read NS16550_LSR_OFFSET h).1 NS16550_LSR_TX_EMPTY = 0.

End DriverMore.

(** A receiver holding the bytes still to be read; stores have no effect on
    it. *)
Definition ex_rx_read (offset : Z) (h : list Z) : Z * list Z :=
  if offset =? NS16550_LSR_OFFSET then
    (match h with [] => 0x60 | _ :: _ => 0x61 end, h)
  else if offset =? NS16550_RBR_OFFSET then
    match h with
    | [] => (0x00, [])
    | v :: h' => (v, h')
    end
  else (0x83, h).

Definition ex_rx_write (offset value : Z) (h : list Z) : list Z := h.

Definition ex_rx_uart : ns16550_device (list Z) :=
  {| hw := [104; 105]; written := [] |}.

(** A transmitter that stays busy. *)
Definition ex_stuck_read (offset : Z) (h : unit) : Z * unit := (0x00, h).

Definition ex_stuck_write (offset value : Z) (h : unit) : unit := h.

(** ** Properties of console.c *)

Section ConsoleProperties.
Context {T : Target} {Env : Type}.
Implicit Types (r : registry Env) (w : world Env) (d : uk_console Env).

Lemma to_ssz_small (x : Z) : 0 ≤ x ≤ SSZ_MAX → to_ssz x = x.
Proof.
  unfold to_ssz, SSZ_MAX. intros Hx.
  pose proof SZ_BITS_pos as Hb.
  assert (Hp : 2 ^ SZ_BITS = 2 * 2 ^ (SZ_BITS - 1)).
  { rewrite <- Z.pow_succ_r by lia. f_equal. lia. }
  assert (0 < 2 ^ (SZ_BITS - 1)) by (apply Z.pow_pos_nonneg; lia).
  rewrite Z.mod_small by lia.
  destruct (Z.ltb_spec x (2 ^ (SZ_BITS - 1))); lia.
Qed.

Lemma valid_buffer_size w buf len :
  valid_buffer w buf len → len ≠ 0 → 0 < len ≤ SSZ_MAX.
Proof. intros (b & _ & ? & ? & ?) ?. lia. Qed.

Lemma io_bind_Some {A B} (m : io Env A) (k : A → io Env B) w a w' :
  m w = Some (a, w') → io_bind m k w = k a w'.
Proof. unfold io_bind. by intros ->. Qed.

(** *** Argument checks *)

(** C9. In [uk_console_out], [uk_console_in], [uk_console_out_direct] and
    [uk_console_in_direct] the test of [len] comes first: with [len = 0] each
    returns 0 and leaves the world as it was (no device function runs),
    whatever [buf] and [dev] are, null included. *)
Theorem zero_length_first r dev buf w :
  uk_console_out r buf 0 w = Some (0, w) ∧
  uk_console_in r buf 0 w = Some (0, w) ∧
  uk_console_out_direct r dev buf 0 w = Some (0, w) ∧
  uk_console_in_direct r dev buf 0 w = Some (0, w).
Proof. repeat split. Qed.

(** C6. [uk_console_out] with [len = 0] returns 0, and with a null [buf] and
    a non-zero [len] returns [-EINVAL], a negative value; in both cases the
    world is unchanged, so no [out] was called. *)
Theorem uk_console_out_invalid r buf len w :
  len ≠ 0 →
  uk_console_out r buf 0 w = Some (0, w) ∧
  uk_console_out r None len w = Some (- EINVAL, w) ∧
  - EINVAL < 0.
Proof.
  intros Hlen. split; [done|]. split.
  - unfold uk_console_out. by destruct (Z.eqb_spec len 0).
  - pose proof EINVAL_pos. lia.
Qed.

Lemma call_out_grows l f b len w rc w' :
  call_out l f b len w = Some (rc, w') →
  calls w' = calls w ++ [Call OUT l b len rc] ∧ mem w' = mem w.
Proof.
  unfold call_out. destruct (f l _ len (env w)) as [rc0 e].
  intros [= <- <-]. done.
Qed.

Lemma call_out_env l f b len w rc w' :
  call_out l f b len w = Some (rc, w') →
  env w' = (f l (buffer_bytes w b len) len (env w)).2.
Proof.
  unfold call_out, buffer_bytes. destruct (f l _ len (env w)) as [rc0 e].
  intros [= <- <-]. done.
Qed.

Lemma call_in_grows l f b len w rc w' :
  call_in l f b len w = Some (rc, w') →
  calls w' = calls w ++ [Call IN l b len rc].
Proof.
  unfold call_in. destruct (f l len (env w)) as [[rc0 data] e].
  intros [= <- <-]. done.
Qed.

Lemma app_singleton_neq {A} (l : list A) (x : A) : l ++ [x] ≠ l.
Proof.
  intros H. apply (f_equal length) in H. rewrite length_app in H.
  simpl in H. lia.
Qed.

(** C7 (as the code has it). With a non-zero [len], [uk_console_out_direct]
    returns [-EINVAL] without calling any device function exactly when [buf]
    is null, [dev] is null, [dev->ops] is null or [dev->ops->out] is null;
    likewise [uk_console_in_direct] with [dev->ops->in].  Whether the device
    is registered plays no part. *)
Theorem direct_io_invalid_iff r dev buf len w :
  len ≠ 0 →
  (uk_console_out_direct r dev buf len w = Some (- EINVAL, w) ↔
     buf = None ∨ dev = None ∨ null_ops r dev ∨ lacks ops_out r dev) ∧
  (uk_console_in_direct r dev buf len w = Some (- EINVAL, w) ↔
     buf = None ∨ dev = None ∨ null_ops r dev ∨ lacks ops_in r dev).
Proof.
  intros Hlen. unfold uk_console_out_direct, uk_console_in_direct, null_ops, lacks.
  destruct (Z.eqb_spec len 0) as [|_]; [done|].
  destruct buf as [b|]; [|split; split; auto].
  destruct dev as [l|]; [|split; split; auto].
  unfold io_bind, deref.
  destruct (objs r !! l) as [d|] eqn:Hd.
  2:{ split; (split; [done|]); intros [|[|[(?&?&?&?&?)|(?&?&?&?&?&?)]]]; congruence. }
  destruct (dev_ops d) as [o|] eqn:Ho.
  2:{ split; (split; [intros _|done]); right; right; left; eauto. }
  split.
  - destruct (ops_out o) as [f|] eqn:Hf.
    + split.
      * intros Hc. destruct (call_out_grows _ _ _ _ _ _ _ Hc) as [Hg _].
        symmetry in Hg. by apply app_singleton_neq in Hg.
      * intros [|[|[(?&?&?&?&?)|(?&?&?&?&?&?&?)]]]; simplify_eq.
    + split; [intros _|done]. right; right; right. eauto 10.
  - destruct (ops_in o) as [f|] eqn:Hf.
    + split.
      * intros Hc. apply call_in_grows in Hc.
        symmetry in Hc. by apply app_singleton_neq in Hc.
      * intros [|[|[(?&?&?&?&?)|(?&?&?&?&?&?&?)]]]; simplify_eq.
    + split; [intros _|done]. right; right; right. eauto 10.
Qed.

(** *** Broadcast output *)

Lemma stdout_target_fst r x t : stdout_target r x = Some t → t.1 = x.
Proof.
  unfold stdout_target. intros H.
  repeat case_match; simplify_eq. done.
Qed.

Lemma stdin_source_fst r x t : stdin_source r x = Some t → t.1 = x.
Proof.
  unfold stdin_source. intros H.
  repeat case_match; simplify_eq. done.
Qed.

Lemma omap_fst_NoDup {B} (f : loc → option (loc * B)) (l : list loc) :
  (∀ x t, f x = Some t → t.1 = x) → NoDup l → NoDup (omap f l).*1.
Proof.
  intros Hf. induction 1 as [|x l Hx Hnd IH]; simpl; [constructor|].
  destruct (f x) as [t|] eqn:Ht; [|done].
  simpl. constructor; [|done].
  rewrite (Hf _ _ Ht). intros Hin. apply Hx.
  apply list_elem_of_fmap in Hin as (t' & -> & Hin).
  apply list_elem_of_omap in Hin as (y & Hy & Hfy).
  by rewrite (Hf _ _ Hfy).
Qed.

Lemma uk_console_out_loop_cons r x l buf len w d :
  objs r !! x = Some d → is_Some (dev_ops d) → len ≠ 0 →
  uk_console_out_loop r (x :: l) (Some buf) len w =
  match stdout_target r x with
  | Some (_, f) =>
      (call_out x f buf len ;;; uk_console_out_loop r l (Some buf) len) w
  | None => uk_console_out_loop r l (Some buf) len w
  end.
Proof.
  intros Hd [o Ho] Hlen.
  unfold stdout_target. rewrite Hd, Ho.
  cbn [uk_console_out_loop]. unfold uk_console_out_direct.
  destruct (Z.eqb_spec len 0) as [|_]; [done|].
  unfold io_bind, deref, deref_ops, io_ret. rewrite Hd, Ho.
  destruct (flag_set d UK_CONSOLE_FLAG_STDOUT); [|done].
  destruct (ops_out o) as [f|]; [|done].
  by destruct (call_out x f buf len w) as [[rc w1]|].
Qed.

Lemma call_out_defined l f b len w : ∃ rc w', call_out l f b len w = Some (rc, w').
Proof. unfold call_out. destruct (f l _ len (env w)); eauto. Qed.

Lemma call_in_defined l f b len w : ∃ rc w', call_in l f b len w = Some (rc, w').
Proof. unfold call_in. destruct (f l len (env w)) as [[??]?]; eauto. Qed.

Lemma uk_console_out_loop_spec r l buf len w :
  (∀ x, x ∈ l → ∃ d, objs r !! x = Some d ∧ is_Some (dev_ops d)) →
  len ≠ 0 →
  ∃ w' new,
    uk_console_out_loop r l (Some buf) len w = Some (tt, w') ∧
    mem w' = mem w ∧
    env w' = deliver (omap (stdout_target r) l) (buffer_bytes w buf len) len (env w) ∧
    calls w' = calls w ++ new ∧
    call_args <$> new = (λ t, (OUT, t.1, buf, len)) <$> omap (stdout_target r) l.
Proof.
  intros Hwf Hlen. revert w Hwf.
  induction l as [|x l IH]; intros w Hwf.
  { exists w, []. by rewrite app_nil_r. }
  destruct (Hwf x) as (d & Hd & Ho); [left|].
  assert (Hwf' : ∀ y, y ∈ l → ∃ d, objs r !! y = Some d ∧ is_Some (dev_ops d))
    by (intros y Hy; apply Hwf; by right).
  rewrite (uk_console_out_loop_cons _ _ _ _ _ _ _ Hd Ho Hlen).
  cbn [omap list_omap].
  destruct (stdout_target r x) as [[x' f]|] eqn:Ht; [|by apply IH].
  destruct (call_out_defined x f buf len w) as (rc & w1 & Hc).
  rewrite (io_bind_Some _ _ _ _ _ Hc).
  pose proof (call_out_env _ _ _ _ _ _ _ Hc) as He.
  apply call_out_grows in Hc as [Hc Hm].
  destruct (IH w1 Hwf') as (w' & new & Hrun & Hmem & Henv & Hcalls & Hargs).
  apply stdout_target_fst in Ht. simpl in Ht. subst x'.
  exists w', (Call OUT x buf len rc :: new).
  rewrite Hrun. split; [done|]. split; [congruence|]. split; [|split].
  - rewrite Henv, He. unfold buffer_bytes. by rewrite Hm.
  - rewrite Hcalls, Hc, <- app_assoc. done.
  - cbn [fmap list_fmap]. by rewrite <- Hargs.
Qed.

(** C2. With a valid non-null [buf] and a non-zero [len], [uk_console_out]
    calls [out] with that same [buf] and [len], so on all [len] bytes of the
    buffer, once for each registered device that is flagged
    [UK_CONSOLE_FLAG_STDOUT] and has an [out] capability, in registration
    order, calls nothing else, and returns [len], whatever the device
    functions return. *)
Theorem uk_console_out_broadcast r buf len w :
  wf_registry r →
  valid_buffer w (Some buf) len →
  len ≠ 0 →
  ∃ w' new,
    uk_console_out r (Some buf) len w = Some (len, w') ∧
    mem w' = mem w ∧
    Z.of_nat (length (buffer_bytes w buf len)) = len ∧
    env w' = deliver (stdout_targets r) (buffer_bytes w buf len) len (env w) ∧
    calls w' = calls w ++ new ∧
    call_args <$> new = (λ t, (OUT, t.1, buf, len)) <$> stdout_targets r ∧
    NoDup (call_dev <$> new).
Proof.
  intros [Hnd Hwf] Hbuf Hlen0.
  pose proof (valid_buffer_size _ _ _ Hbuf Hlen0) as Hlen. unfold uk_console_out.
  destruct (Z.eqb_spec len 0) as [|Hnz]; [lia|].
  destruct (uk_console_out_loop_spec r (uk_console_device_list r) buf len w Hwf Hnz)
    as (w' & new & Hrun & Hmem & Henv & Hcalls & Hargs).
  exists w', new. rewrite (io_bind_Some _ _ _ _ _ Hrun). unfold io_ret.
  rewrite to_ssz_small by lia. repeat split; try done.
  { destruct Hbuf as (b & [= <-] & ? & ? & _).
    unfold buffer_bytes. rewrite length_take, length_drop. lia. }
  assert (Hdev : call_dev <$> new = (stdout_targets r).*1).
  { apply (f_equal (fmap (λ a : op * loc * nat * Z, a.1.1.2))) in Hargs.
    rewrite <- !list_fmap_compose in Hargs. exact Hargs. }
  rewrite Hdev. apply omap_fst_NoDup; [apply stdout_target_fst|done].
Qed.

(** *** Aggregate input *)

Lemma uk_console_in_loop_skip r x l buf leftover w d :
  objs r !! x = Some d → is_Some (dev_ops d) →
  stdin_source r x = None →
  uk_console_in_loop r (x :: l) buf leftover w =
  uk_console_in_loop r l buf leftover w.
Proof.
  intros Hd [o Ho]. unfold stdin_source. rewrite Hd, Ho.
  cbn [uk_console_in_loop].
  unfold io_bind, deref, deref_ops, io_ret. rewrite Hd, Ho.
  destruct (flag_set d UK_CONSOLE_FLAG_STDIN); [|done].
  by destruct (ops_in o).
Qed.

Lemma uk_console_in_loop_call r x l buf leftover w f rc w1 :
  stdin_source r x = Some (x, f) → leftover ≠ 0 →
  call_in x f buf leftover w = Some (rc, w1) →
  uk_console_in_loop r (x :: l) buf leftover w =
  if (0 <=? rc) && (rc <=? leftover) then
    if leftover - rc =? 0 then Some (leftover - rc, w1)
    else uk_console_in_loop r l (buf + Z.to_nat rc)%nat (leftover - rc) w1
  else uk_console_in_loop r l buf leftover w1.
Proof.
  unfold stdin_source. intros Hs Hlen Hc.
  destruct (objs r !! x) as [d|] eqn:Hd; [|done].
  destruct (flag_set d UK_CONSOLE_FLAG_STDIN) eqn:Hfl; [|done].
  destruct (dev_ops d) as [o|] eqn:Ho; [|done].
  destruct (ops_in o) as [f'|] eqn:Hf; [|done].
  simplify_eq.
  cbn [uk_console_in_loop]. unfold uk_console_in_direct.
  destruct (Z.eqb_spec leftover 0) as [|_]; [done|].
  unfold io_bind, deref, deref_ops, io_ret. rewrite Hd, Hfl, Ho, Hf, Hc.
  destruct ((0 <=? rc) && (rc <=? leftover)).
  - by destruct (leftover - rc =? 0).
  - by destruct (Z.eqb_spec leftover 0).
Qed.

Lemma accepted_bounds c : 0 ≤ call_len c → 0 ≤ accepted c ≤ call_len c.
Proof. unfold accepted. intros. case_match; lia. Qed.

Lemma accepted_call b x leftover rc :
  accepted (Call IN x b leftover rc) =
  if (0 <=? rc) && (rc <=? leftover) then rc else 0.
Proof. done. Qed.

Lemma uk_console_in_loop_trace r l buf leftover w :
  (∀ x, x ∈ l → ∃ d, objs r !! x = Some d ∧ is_Some (dev_ops d)) →
  0 < leftover →
  ∃ left' w' new,
    uk_console_in_loop r l buf leftover w = Some (left', w') ∧
    calls w' = calls w ++ new ∧
    0 ≤ left' ≤ leftover ∧
    leftover - left' = sum_accepted new ∧
    in_trace (omap (stdin_source r) l).*1 buf leftover new.
Proof.
  intros Hwf. revert buf leftover w.
  induction l as [|x l IH]; intros buf leftover w Hpos.
  { exists leftover, w, []. rewrite app_nil_r. simpl. repeat split; lia. }
  destruct (Hwf x) as (d & Hd & Ho); [left|].
  assert (Hwf' : ∀ y, y ∈ l → ∃ d, objs r !! y = Some d ∧ is_Some (dev_ops d))
    by (intros y Hy; apply Hwf; by right).
  specialize (IH Hwf').
  cbn [omap list_omap].
  destruct (stdin_source r x) as [[x' f]|] eqn:Hs.
  2:{ rewrite (uk_console_in_loop_skip _ _ _ _ _ _ _ Hd Ho Hs). by apply IH. }
  pose proof (stdin_source_fst _ _ _ Hs) as Hx. simpl in Hx. subst x'.
  destruct (call_in_defined x f buf leftover w) as (rc & w1 & Hc).
  assert (Hnz0 : leftover ≠ 0) by lia.
  rewrite (uk_console_in_loop_call _ _ _ _ _ _ _ _ _ Hs Hnz0 Hc).
  apply call_in_grows in Hc.
  pose proof (accepted_call buf x leftover rc) as Hacc.
  cbn [fmap list_fmap fst in_trace].
  destruct ((0 <=? rc) && (rc <=? leftover)) eqn:Hok.
  - apply andb_true_iff in Hok as [H0%Z.leb_le Hle%Z.leb_le].
    destruct (Z.eqb_spec (leftover - rc) 0) as [Hz|Hnz].
    + exists (leftover - rc), w1, [Call IN x buf leftover rc].
      repeat split; try done; try lia.
      * simpl. rewrite Hacc. lia.
      * rewrite Hacc. by destruct (Z.eqb_spec (leftover - rc) 0).
    + assert (Hpos' : 0 < leftover - rc) by lia.
      destruct (IH (buf + Z.to_nat rc)%nat (leftover - rc) w1 Hpos')
        as (left' & w' & new & Hrun & Hcalls & Hb & Hsum & Htr).
      exists left', w', (Call IN x buf leftover rc :: new).
      rewrite Hrun, Hcalls, Hc, <- app_assoc.
      repeat split; try done; try lia.
      * simpl. rewrite Hacc. lia.
      * rewrite Hacc. by destruct (Z.eqb_spec (leftover - rc) 0).
  - destruct (IH buf leftover w1 Hpos)
      as (left' & w' & new & Hrun & Hcalls & Hb & Hsum & Htr).
    exists left', w', (Call IN x buf leftover rc :: new).
    rewrite Hrun, Hcalls, Hc, <- app_assoc.
    repeat split; try done; try lia.
    + simpl. rewrite Hacc. lia.
    + rewrite Hacc, Z.sub_0_r, Nat.add_0_r.
      by destruct (Z.eqb_spec leftover 0); [lia|].
Qed.

Lemma accepted_rejects c :
  call_ret c < 0 ∨ call_len c < call_ret c → accepted c = 0.
Proof.
  unfold accepted. intros H.
  destruct (Z.leb_spec 0 (call_ret c)), (Z.leb_spec (call_ret c) (call_len c));
    simpl; lia.
Qed.

Lemma in_trace_lookup devs buf leftover cs i c :
  in_trace devs buf leftover cs → 0 < leftover →
  cs !! i = Some c → devs !! i = Some (call_dev c).
Proof.
  revert buf leftover cs i.
  induction devs as [|dev devs IH]; intros buf leftover cs i Htr Hpos Hi.
  { destruct cs; [by rewrite lookup_nil in Hi|done]. }
  destruct cs as [|c0 cs]; [done|].
  destruct Htr as [Hargs Htr].
  assert (Hlen0 : call_len c0 = leftover) by (by injection Hargs).
  pose proof (accepted_bounds c0 ltac:(lia)) as Hb.
  destruct i as [|i]; simpl in Hi |- *.
  - injection Hi as <-. f_equal. by injection Hargs.
  - destruct (Z.eqb_spec (leftover - accepted c0) 0); [by subst cs|].
    apply (IH _ _ _ _ Htr ltac:(lia) Hi).
Qed.

Lemma in_trace_after_negative devs buf leftover cs i c :
  in_trace devs buf leftover cs → 0 < leftover →
  cs !! i = Some c → call_ret c < 0 →
  ∀ dev', devs !! S i = Some dev' →
    ∃ c', cs !! S i = Some c' ∧
          call_args c' = (IN, dev', call_buf c, call_len c).
Proof.
  revert buf leftover cs i.
  induction devs as [|dev devs IH]; intros buf leftover cs i Htr Hpos Hi Hneg dev' Hdev.
  { done. }
  destruct cs as [|c0 cs]; [done|].
  destruct Htr as [Hargs Htr].
  assert (Hlen0 : call_len c0 = leftover) by (by injection Hargs).
  pose proof (accepted_bounds c0 ltac:(lia)) as Hb.
  destruct i as [|i].
  - simpl in Hi. injection Hi as Hc0. rewrite Hc0 in *. clear Hc0 c0.
    rewrite (accepted_rejects c) in Htr by lia.
    rewrite Z.sub_0_r, Nat.add_0_r in Htr.
    destruct (Z.eqb_spec leftover 0); [lia|].
    simpl in Hdev. destruct devs as [|dev1 devs]; [done|].
    destruct cs as [|c1 cs]; [done|].
    destruct Htr as [Hargs1 _]. simpl in Hdev. injection Hdev as Hdev.
    exists c1. split; [done|].
    rewrite Hargs1, Hdev. f_equal; [f_equal|]; by injection Hargs.
  - simpl in Hi, Hdev.
    destruct (Z.eqb_spec (leftover - accepted c0) 0); [by subst cs|].
    apply (IH _ _ _ _ Htr ltac:(lia) Hi Hneg _ Hdev).
Qed.

(** C10. For a valid non-null [buf] and a non-zero [len], [uk_console_in]
    returns a value between 0 and [len], whatever the devices return: the
    value is the sum, over the [in] calls made, of the results that were
    accepted, and a result that is negative or larger than the space that was
    left counts for zero. *)
Theorem uk_console_in_bounded r buf len w :
  wf_registry r →
  valid_buffer w (Some buf) len →
  len ≠ 0 →
  ∃ rc w' new,
    uk_console_in r (Some buf) len w = Some (rc, w') ∧
    0 ≤ rc ≤ len ∧
    calls w' = calls w ++ new ∧
    rc = sum_accepted new ∧
    ∀ c, c ∈ new → call_ret c < 0 ∨ call_len c < call_ret c → accepted c = 0.
Proof.
  intros [_ Hwf] Hbuf Hlen0.
  pose proof (valid_buffer_size _ _ _ Hbuf Hlen0) as Hlen. unfold uk_console_in.
  destruct (Z.eqb_spec len 0) as [|_]; [lia|].
  destruct (uk_console_in_loop_trace r (uk_console_device_list r) buf len w Hwf)
    as (left' & w' & new & Hrun & Hcalls & Hb & Hsum & _); [lia|].
  exists (len - left'), w', new.
  rewrite (io_bind_Some _ _ _ _ _ Hrun). unfold io_ret.
  rewrite to_ssz_small by lia.
  repeat split; try done; try lia.
  intros c _. apply accepted_rejects.
Qed.

(** C1 (as the code has it). A negative result of a device's [in] does not
    end the aggregate read: the calls made are to the stdin devices in
    registration order; a negative result counts for zero bytes, and the next
    registered stdin device, when there is one, is called with the same
    position in the buffer and the same remaining length. *)
Theorem uk_console_in_negative_continues r buf len w :
  wf_registry r →
  valid_buffer w (Some buf) len →
  len ≠ 0 →
  ∃ rc w' new,
    uk_console_in r (Some buf) len w = Some (rc, w') ∧
    calls w' = calls w ++ new ∧
    rc = sum_accepted new ∧
    ∀ i c, new !! i = Some c → call_ret c < 0 →
      (stdin_sources r).*1 !! i = Some (call_dev c) ∧
      accepted c = 0 ∧
      ∀ dev', (stdin_sources r).*1 !! S i = Some dev' →
        ∃ c', new !! S i = Some c' ∧
              call_args c' = (IN, dev', call_buf c, call_len c).
Proof.
  intros [_ Hwf] Hbuf Hlen0.
  pose proof (valid_buffer_size _ _ _ Hbuf Hlen0) as Hlen. unfold uk_console_in.
  destruct (Z.eqb_spec len 0) as [|_]; [lia|].
  destruct (uk_console_in_loop_trace r (uk_console_device_list r) buf len w Hwf)
    as (left' & w' & new & Hrun & Hcalls & Hb & Hsum & Htr); [lia|].
  exists (len - left'), w', new.
  rewrite (io_bind_Some _ _ _ _ _ Hrun). unfold io_ret.
  rewrite to_ssz_small by lia.
  split; [done|]. split; [done|]. split; [lia|].
  intros i c Hi Hneg. split; [|split].
  - apply (in_trace_lookup _ _ _ _ _ _ Htr ltac:(lia) Hi).
  - apply accepted_rejects. by left.
  - by apply (in_trace_after_negative _ _ _ _ _ _ Htr ltac:(lia)).
Qed.

Lemma list_inserts_app (i : nat) (k1 k2 l : list byte) :
  list_inserts (i + length k1) k2 (list_inserts i k1 l) =
  list_inserts i (k1 ++ k2) l.
Proof. by rewrite list_inserts_app_l, (Nat.add_comm i). Qed.

Lemma list_inserts_read (i : nat) (k l : list byte) :
  (i + length k ≤ length l)%nat →
  take (length k) (drop i (list_inserts i k l)) = k.
Proof.
  intros Hfit. apply list_eq. intros j.
  destruct (decide (j < length k)%nat) as [Hj|Hj].
  - rewrite lookup_take_lt, lookup_drop, list_lookup_inserts by lia.
    f_equal. lia.
  - rewrite lookup_take_ge by lia. symmetry. apply lookup_ge_None_2. lia.
Qed.

Lemma uk_console_in_loop_aggregate r l buf leftover w :
  (∀ x, x ∈ l → ∃ d, objs r !! x = Some d ∧ is_Some (dev_ops d)) →
  0 < leftover →
  Forall (λ s, returns_available s.2) (omap (stdin_source r) l) →
  ∃ w' new,
    let res := read_aggregate (omap (stdin_source r) l) buf leftover (env w) in
    uk_console_in_loop r l buf leftover w =
      Some (leftover - Z.of_nat (length res.1.1), w') ∧
    Z.of_nat (length res.1.1) ≤ leftover ∧
    env w' = res.2 ∧
    mem w' = list_inserts buf res.1.1 (mem w) ∧
    calls w' = calls w ++ new ∧
    call_args <$> new = (λ q, (IN, q.1.1, q.1.2, q.2)) <$> res.1.2.
Proof.
  intros Hwf. revert buf leftover w.
  induction l as [|x l IH]; intros buf leftover w Hpos Hav.
  { exists w, []. simpl. rewrite app_nil_r, Z.sub_0_r. repeat split; lia. }
  destruct (Hwf x) as (d & Hd & Ho); [left|].
  assert (Hwf' : ∀ y, y ∈ l → ∃ d, objs r !! y = Some d ∧ is_Some (dev_ops d))
    by (intros y Hy; apply Hwf; by right).
  specialize (IH Hwf').
  cbn [omap list_omap] in *.
  destruct (stdin_source r x) as [[x' f]|] eqn:Hs.
  2:{ rewrite (uk_console_in_loop_skip _ _ _ _ _ _ _ Hd Ho Hs). by apply IH. }
  pose proof (stdin_source_fst _ _ _ Hs) as Hx. simpl in Hx. subst x'.
  apply Forall_cons in Hav as [Hf Hav]. simpl in Hf.
  specialize (Hf x leftover (env w) Hpos).
  assert (Hnz0 : leftover ≠ 0) by lia.
  cbn [read_aggregate].
  destruct (f x leftover (env w)) as [[rc data] e1] eqn:Hfx.
  simpl in Hf. destruct Hf as [Hrc Hdata].
  set (w1 := {| env := e1;
                mem := list_inserts buf (take (Z.to_nat leftover) data) (mem w);
                calls := calls w ++ [Call IN x buf leftover rc] |}).
  assert (Hc : call_in x f buf leftover w = Some (rc, w1)).
  { unfold call_in. by rewrite Hfx. }
  rewrite (uk_console_in_loop_call _ _ _ _ _ _ _ _ _ Hs Hnz0 Hc).
  assert (Htake : take (Z.to_nat leftover) data = data)
    by (apply take_ge; lia).
  destruct (Z.leb_spec 0 rc), (Z.leb_spec rc leftover); try lia. simpl.
  destruct (Z.eqb_spec (leftover - rc) 0) as [Hz|Hnz].
  - exists w1, [Call IN x buf leftover rc]. simpl.
    rewrite Htake, Hdata. repeat split; try done; try lia.
  - assert (Hpos' : 0 < leftover - rc) by lia.
    destruct (IH (buf + Z.to_nat rc)%nat (leftover - rc) w1 Hpos' Hav)
      as (w' & new & Hrun & Hle & Henv & Hmem & Hcalls & Hargs).
    simpl in Hrun, Hle, Henv, Hmem, Hargs.
    replace (buf + Z.to_nat rc)%nat with (buf + length data)%nat in * by lia.
    destruct (read_aggregate _ (buf + length data)%nat (leftover - rc) e1)
      as [[more reqs] e2] eqn:Hra.
    simpl in Hrun, Hle, Henv, Hmem, Hargs.
    exists w', (Call IN x buf leftover rc :: new). simpl.
    rewrite Hrun, length_app, Hmem, Htake, list_inserts_app, Hcalls.
    subst w1. cbn [calls]. rewrite <- app_assoc.
    repeat split; try done; try lia.
    + do 2 f_equal. lia.
    + unfold fmap in Hargs. by rewrite Hargs.
Qed.

Lemma read_aggregate_no_data (srcs : list (loc * uk_console_in_func Env))
    pos space e :
  0 < space →
  Forall (λ s, returns_available s.2) srcs →
  Forall (λ s, no_data s.2) srcs →
  (read_aggregate srcs pos space e).1.1 = [].
Proof.
  intros Hpos Hav Hno. revert pos e.
  induction srcs as [|[l f] srcs IH]; intros pos e; [done|].
  apply Forall_cons in Hav as [Hf Hav]. apply Forall_cons in Hno as [Hn Hno].
  simpl in Hf, Hn. specialize (Hf l space e Hpos) as [_ Hdata].
  specialize (Hn l space e). rewrite Hn in Hdata.
  cbn [read_aggregate].
  destruct (f l space e) as [[n data] e1]. simpl in Hn, Hdata. subst n.
  assert (Hnil : data = []) by (apply nil_length_inv; lia). subst data.
  rewrite Z.sub_0_r. destruct (Z.eqb_spec space 0); [lia|].
  rewrite Nat.add_0_r. specialize (IH Hav Hno pos e1).
  by destruct (read_aggregate srcs pos space e1) as [[more reqs] e2].
Qed.

(** C3. With a valid [buf] and [len], when the [in] of every stdin device
    returns the bytes it has (a count between 0 and what was asked),
    [uk_console_in] does what the aggregate read of the specification does:
    the stdin devices with an [in] capability are asked in registration
    order, each for the unfilled rest of the buffer, until the buffer is full
    or the devices are exhausted; the bytes obtained are laid out in that
    order from [buf]; the result is their number, which is 0 when no device
    has data. *)
Theorem uk_console_in_aggregate r buf len w :
  wf_registry r →
  valid_buffer w (Some buf) len →
  len ≠ 0 →
  Forall (λ s, returns_available s.2) (stdin_sources r) →
  ∃ w' new,
    let res := read_aggregate (stdin_sources r) buf len (env w) in
    uk_console_in r (Some buf) len w = Some (Z.of_nat (length res.1.1), w') ∧
    Z.of_nat (length res.1.1) ≤ len ∧
    env w' = res.2 ∧
    mem w' = list_inserts buf res.1.1 (mem w) ∧
    take (length res.1.1) (drop buf (mem w')) = res.1.1 ∧
    calls w' = calls w ++ new ∧
    call_args <$> new = (λ q, (IN, q.1.1, q.1.2, q.2)) <$> res.1.2 ∧
    (Forall (λ s, no_data s.2) (stdin_sources r) →
     uk_console_in r (Some buf) len w = Some (0, w')).
Proof.
  intros [_ Hwf] Hbuf Hlen0 Hav.
  pose proof (valid_buffer_size _ _ _ Hbuf Hlen0) as Hlen. unfold uk_console_in.
  destruct (Z.eqb_spec len 0) as [|_]; [lia|].
  destruct (uk_console_in_loop_aggregate r (uk_console_device_list r) buf len w Hwf)
    as (w' & new & Hrun & Hle & Henv & Hmem & Hcalls & Hargs); [lia|done|].
  exists w', new. cbv zeta in *. fold (stdin_sources r) in *.
  rewrite (io_bind_Some _ _ _ _ _ Hrun). unfold io_ret.
  rewrite to_ssz_small by lia.
  replace (len - (len - Z.of_nat (length (read_aggregate (stdin_sources r) buf len (env w)).1.1)))
    with (Z.of_nat (length (read_aggregate (stdin_sources r) buf len (env w)).1.1)) by lia.
  repeat split; try done.
  - rewrite Hmem. apply list_inserts_read.
    destruct Hbuf as (b & [= <-] & _ & Hfit & _). lia.
  - intros Hno. by rewrite read_aggregate_no_data by (done || lia).
Qed.

(** *** Registration *)

Lemma uk_console_register_Some l r r' :
  uk_console_register (Some l) r = Some r' →
  ∃ d d',
    objs r !! l = Some d ∧ is_Some (dev_ops d) ∧
    (l ∉ uk_console_device_list r) ∧
    objs r' = <[l := d']> (objs r) ∧
    uk_console_device_list r' = uk_console_device_list r ++ [l] ∧
    uk_console_device_count r' = to_u16 (uk_console_device_count r + 1) ∧
    uk_console_set_standard_once r' ≠ 0 ∧
    dev_ops d' = dev_ops d ∧
    dev_id d' = uk_console_device_count r ∧
    dev_flags d' =
      (if (dev_flags d =? 0) && (uk_console_set_standard_once r =? 0)
       then Z.lor UK_CONSOLE_FLAG_STDOUT UK_CONSOLE_FLAG_STDIN
       else dev_flags d).
Proof.
  unfold uk_console_register. intros H.
  destruct (objs r !! l) as [d|] eqn:Hd; [|done].
  destruct (dev_ops d) as [o|] eqn:Ho; [|done].
  destruct (decide (l ∈ uk_console_device_list r)) as [|Hnotin]; [done|].
  injection H as <-. eexists d, _. cbn.
  repeat split; try done; try by eauto.
  - destruct (Z.eqb_spec (dev_flags d) 0) as [Hz|Hnz]; cbn.
    + rewrite Hz. cbn.
      destruct (Z.eqb_spec (uk_console_set_standard_once r) 0); cbn; done.
    + done.
  - destruct (Z.eqb_spec (dev_flags d) 0) as [Hz|Hnz]; cbn.
    + rewrite Hz. cbn.
      by destruct (Z.eqb_spec (uk_console_set_standard_once r) 0).
    + done.
Qed.

Lemma to_u16_add_l a b : to_u16 (to_u16 a + b) = to_u16 (a + b).
Proof. unfold to_u16. by rewrite Zplus_mod_idemp_l. Qed.

Lemma register_all_spec devs r r' :
  register_all devs r = Some r' →
  to_u16 (uk_console_device_count r) = uk_console_device_count r →
  uk_console_device_list r' = uk_console_device_list r ++ devs ∧
  uk_console_device_count r' =
    to_u16 (uk_console_device_count r + Z.of_nat (length devs)) ∧
  (devs ≠ [] → uk_console_set_standard_once r' ≠ 0) ∧
  NoDup devs ∧
  (∀ x, x ∈ devs → x ∉ uk_console_device_list r) ∧
  (∀ x, x ∉ devs → objs r' !! x = objs r !! x) ∧
  (∀ i x, devs !! i = Some x →
     ∃ d d',
       objs r !! x = Some d ∧ objs r' !! x = Some d' ∧
       is_Some (dev_ops d') ∧
       dev_id d' = to_u16 (uk_console_device_count r + Z.of_nat i) ∧
       dev_flags d' =
         (if (dev_flags d =? 0) && (Z.of_nat i =? 0) &&
             (uk_console_set_standard_once r =? 0)
          then Z.lor UK_CONSOLE_FLAG_STDOUT UK_CONSOLE_FLAG_STDIN
          else dev_flags d)).
Proof.
  revert r. induction devs as [|dev devs IH]; intros r Hrun Hcnt.
  { injection Hrun as <-. rewrite app_nil_r, Z.add_0_r, Hcnt.
    repeat split; try done; try constructor;
      try (intros i x Hi; by rewrite lookup_nil in Hi);
      try (intros x Hx; by apply not_elem_of_nil in Hx). }
  cbn [register_all] in Hrun.
  destruct (uk_console_register (Some dev) r) as [r1|] eqn:Hreg; [|done].
  apply uk_console_register_Some in Hreg
    as (d & d1 & Hd & Hops & Hnotin & Hobjs & Hlist & Hcount & Honce & Hops1 & Hid & Hfl).
  destruct (IH r1 Hrun) as (Il & Ic & _ & Ind & Inotin & Iobjs & Iat).
  { rewrite Hcount. unfold to_u16. apply Z.mod_mod. lia. }
  assert (Hdev : dev ∉ devs).
  { intros Hin. apply (Inotin _ Hin). rewrite Hlist.
    apply elem_of_app. right. by apply list_elem_of_singleton. }
  repeat split.
  - by rewrite Il, Hlist, <- app_assoc.
  - rewrite Ic, Hcount, to_u16_add_l. f_equal. rewrite length_cons. lia.
  - intros _. destruct devs as [|dev2 devs].
    + by injection Hrun as <-.
    + destruct (IH r1 Hrun) as (_ & _ & Ho & _); [|by apply Ho].
      rewrite Hcount. unfold to_u16. apply Z.mod_mod. lia.
  - by constructor.
  - intros x [->|Hx]%elem_of_cons; [done|].
    intros Hin. apply (Inotin _ Hx). rewrite Hlist.
    apply elem_of_app. by left.
  - intros x Hx. apply not_elem_of_cons in Hx as [Hne Hx].
    rewrite (Iobjs _ Hx), Hobjs. by rewrite lookup_insert_ne.
  - intros [|i] x Hi; simpl in Hi.
    + injection Hi as <-. exists d, d1.
      rewrite (Iobjs _ Hdev), Hobjs, lookup_insert_eq.
      repeat split; try done.
      * by rewrite Hops1.
      * by rewrite Hid, Z.add_0_r, Hcnt.
      * rewrite Hfl. by rewrite andb_true_r.
    + destruct (Iat _ _ Hi) as (d0 & d' & Hd0 & Hd' & Hops' & Hid' & Hfl').
      assert (Hne : dev ≠ x).
      { intros ->. apply Hdev. by eapply list_elem_of_lookup_2. }
      rewrite Hobjs, lookup_insert_ne in Hd0 by done.
      exists d0, d'. repeat split; try done.
      * rewrite Hid', Hcount, to_u16_add_l. f_equal. lia.
      * rewrite Hfl'.
        destruct (Z.eqb_spec (uk_console_set_standard_once r1) 0); [done|].
        rewrite andb_false_r.
        destruct (Z.eqb_spec (Z.of_nat (S i)) 0); [lia|].
        by rewrite andb_false_r.
Qed.

Lemma uk_console_register_succeeds l r d :
  objs r !! l = Some d → is_Some (dev_ops d) →
  l ∉ uk_console_device_list r →
  is_Some (uk_console_register (Some l) r).
Proof.
  intros Hd [o Ho] Hnotin. unfold uk_console_register.
  rewrite Hd, Ho. by destruct (decide (l ∈ uk_console_device_list r)).
Qed.

Lemma register_all_succeeds devs r :
  NoDup devs →
  (∀ x, x ∈ devs →
     (x ∉ uk_console_device_list r) ∧
     ∃ d, objs r !! x = Some d ∧ is_Some (dev_ops d)) →
  is_Some (register_all devs r).
Proof.
  revert r. induction devs as [|dev devs IH]; intros r Hnd Hpre; [done|].
  apply NoDup_cons in Hnd as [Hdev Hnd].
  destruct (Hpre dev) as (Hnotin & d & Hd & Hops); [by left|].
  destruct (uk_console_register_succeeds _ _ _ Hd Hops Hnotin) as [r1 Hreg].
  cbn [register_all]. rewrite Hreg. apply IH; [done|].
  apply uk_console_register_Some in Hreg
    as (_ & d1 & _ & _ & _ & Hobjs & Hlist & _).
  intros x Hx. destruct (Hpre x) as (Hxn & dx & Hdx & Hox); [by right|].
  assert (Hne : dev ≠ x) by (by intros ->).
  split.
  - rewrite Hlist. intros [?|?%list_elem_of_singleton]%elem_of_app; done.
  - exists dx. by rewrite Hobjs, lookup_insert_ne.
Qed.

Lemma registry_init_wf (store : gmap loc (uk_console Env)) :
  wf_registry (registry_init store).
Proof.
  split; [constructor|]. intros l Hl. by apply not_elem_of_nil in Hl.
Qed.

(** Registration keeps the registry well formed: every registry reached from
    the initial state is. *)
Lemma register_all_wf devs r r' :
  wf_registry r →
  to_u16 (uk_console_device_count r) = uk_console_device_count r →
  register_all devs r = Some r' →
  wf_registry r'.
Proof.
  intros [Hnd Hwf] Hcnt Hrun.
  destruct (register_all_spec _ _ _ Hrun Hcnt)
    as (Hl & _ & _ & Hnd' & Hnotin & Hobjs & Hat).
  split.
  - rewrite Hl. apply NoDup_app. repeat split; try done.
    intros x Hx Hx'. by apply (Hnotin _ Hx').
  - intros l. rewrite Hl. intros [Hin|Hin]%elem_of_app.
    + assert (Hl' : l ∉ devs) by (intros Hx; by apply (Hnotin _ Hx)).
      rewrite (Hobjs _ Hl'). by apply Hwf.
    + apply list_elem_of_lookup in Hin as [i Hi].
      destruct (Hat _ _ Hi) as (d & d' & _ & Hd' & Hops & _). eauto.
Qed.

Lemma reachable_wf (store : gmap loc (uk_console Env)) devs r :
  register_all devs (registry_init store) = Some r → wf_registry r.
Proof. apply register_all_wf; [apply registry_init_wf|done]. Qed.

(** The list links the devices in the order of their registration. *)
Lemma registration_order (store : gmap loc (uk_console Env)) devs r :
  register_all devs (registry_init store) = Some r →
  uk_console_device_list r = devs.
Proof.
  intros Hrun. by destruct (register_all_spec _ _ _ Hrun eq_refl) as [-> _].
Qed.

(** C4. In every sequence of registrations from the initial state: a first
    device with zero flags ends with [UK_CONSOLE_FLAG_STDOUT] and
    [UK_CONSOLE_FLAG_STDIN] both set; every device registered after another
    one (which by then has non-zero flags, its own or those it was given)
    keeps zero flags if it had zero flags; non-zero flags are never changed,
    so a first device with only [UK_CONSOLE_FLAG_STDOUT] keeps exactly that
    and no later device is promoted. *)
Theorem register_flag_promotion store devs r :
  register_all devs (registry_init store) = Some r →
  ∀ i dev, devs !! i = Some dev →
    ∃ d d',
      store !! dev = Some d ∧ objs r !! dev = Some d' ∧
      (i = 0%nat → dev_flags d = 0 →
         dev_flags d' = Z.lor UK_CONSOLE_FLAG_STDOUT UK_CONSOLE_FLAG_STDIN ∧
         flag_set d' UK_CONSOLE_FLAG_STDOUT = true ∧
         flag_set d' UK_CONSOLE_FLAG_STDIN = true) ∧
      ((0 < i)%nat → dev_flags d = 0 → dev_flags d' = 0) ∧
      (dev_flags d ≠ 0 → dev_flags d' = dev_flags d) ∧
      (∀ first d0, devs !! 0%nat = Some first → store !! first = Some d0 →
         dev_flags d0 = UK_CONSOLE_FLAG_STDOUT →
         (0 < i)%nat → dev_flags d = 0 →
         dev_flags d' = 0 ∧
         ∃ d0', objs r !! first = Some d0' ∧
                dev_flags d0' = UK_CONSOLE_FLAG_STDOUT).
Proof.
  intros Hrun i dev Hi.
  destruct (register_all_spec _ _ _ Hrun eq_refl) as (_ & _ & _ & _ & _ & _ & Hat).
  destruct (Hat _ _ Hi) as (d & d' & Hd & Hd' & _ & _ & Hfl).
  cbn [registry_init objs uk_console_set_standard_once] in Hd, Hfl.
  exists d, d'. split; [done|]. split; [done|].
  assert (Hlater : (0 < i)%nat → dev_flags d = 0 → dev_flags d' = 0).
  { intros Hpos Hz. rewrite Hfl.
    destruct (Z.eqb_spec (Z.of_nat i) 0); [lia|]. by rewrite andb_false_r. }
  assert (Hfirst : i = 0%nat → dev_flags d = 0 →
            dev_flags d' = Z.lor UK_CONSOLE_FLAG_STDOUT UK_CONSOLE_FLAG_STDIN).
  { intros -> Hz. by rewrite Hfl, Hz. }
  refine (conj _ (conj Hlater (conj _ _))).
  - intros Hi0 Hz. specialize (Hfirst Hi0 Hz).
    split; [done|]. unfold flag_set. rewrite Hfirst.
    split; apply negb_true_iff, Z.eqb_neq; intros Hc.
    + rewrite Z.land_comm, Z.land_lor_distr_r, Z.land_diag in Hc.
      apply Z.lor_eq_0_iff in Hc as [Hc _]. by apply FLAG_STDOUT_nonzero.
    + rewrite Z.land_comm, Z.land_lor_distr_r, Z.land_diag in Hc.
      apply Z.lor_eq_0_iff in Hc as [_ Hc]. by apply FLAG_STDIN_nonzero.
  - intros Hnz. rewrite Hfl. by destruct (Z.eqb_spec (dev_flags d) 0).
  - intros first d0 Hf Hd0 Hfl0 Hpos Hz. split; [by apply Hlater|].
    destruct (Hat _ _ Hf) as (d1 & d1' & Hd1 & Hd1' & _ & _ & Hfl1).
    cbn [registry_init objs] in Hd1. rewrite Hd0 in Hd1. injection Hd1 as <-.
    exists d1'. split; [done|]. rewrite Hfl1, Hfl0.
    pose proof FLAG_STDOUT_nonzero.
    by destruct (Z.eqb_spec UK_CONSOLE_FLAG_STDOUT 0).
Qed.

Lemma to_u16_small (x : Z) : 0 ≤ x < 65536 → to_u16 x = x.
Proof. unfold to_u16. intros. apply Z.mod_small. lia. Qed.

(** C5 (as the code has it). For every sequence of at most 65536
    registrations of distinct devices from the initial state, each
    registration succeeds, the ids given are 0, 1, 2, ... in registration
    order, and after each registration [uk_console_count] is the number of
    devices registered so far as long as that number is at most 65535 (the
    counter is a [__u16]). *)
Theorem register_ids_sequential (store : gmap loc (uk_console Env)) devs :
  NoDup devs →
  (∀ x, x ∈ devs → ∃ d, store !! x = Some d ∧ is_Some (dev_ops d)) →
  Z.of_nat (length devs) ≤ 65536 →
  ∀ k, (k ≤ length devs)%nat →
    ∃ rk,
      register_all (take k devs) (registry_init store) = Some rk ∧
      (Z.of_nat k ≤ 65535 → uk_console_count rk = Z.of_nat k) ∧
      ∀ i dev, (i < k)%nat → devs !! i = Some dev →
        ∃ d', objs rk !! dev = Some d' ∧ dev_id d' = Z.of_nat i.
Proof.
  intros Hnd Hstore Hlen k Hk.
  assert (Hndk : NoDup (take k devs)).
  { rewrite <- (take_drop k devs) in Hnd. by apply NoDup_app in Hnd as [? _]. }
  destruct (register_all_succeeds (take k devs) (registry_init store) Hndk)
    as [rk Hrun].
  { intros x Hx. split; [apply not_elem_of_nil|].
    apply elem_of_take in Hx as (i & Hi & _).
    apply Hstore. by eapply list_elem_of_lookup_2. }
  exists rk. split; [done|].
  destruct (register_all_spec _ _ _ Hrun eq_refl)
    as (_ & Hcount & _ & _ & _ & _ & Hat).
  cbn [registry_init uk_console_device_count] in Hcount, Hat.
  split.
  - intros Hk'. unfold uk_console_count.
    rewrite Hcount, length_take_le, to_u16_small by lia. done.
  - intros i dev Hi Hdev.
    destruct (Hat i dev) as (_ & d' & _ & Hd' & _ & Hid & _).
    { by rewrite lookup_take_lt. }
    exists d'. split; [done|]. rewrite Hid, to_u16_small; lia.
Qed.

End ConsoleProperties.

(** ** Properties of the NS16550 transmit path *)

Section DriverProperties.
Context {T : Target} {HW : Type}.
Variable io_read : Z → HW → Z * HW.
Variable io_write : Z → Z → HW → HW.
Variable char_signed : bool.

Lemma char_low_byte (a : byte) :
  Z.land (char_to_int char_signed a) 0xff = byte_val a.
Proof. destruct char_signed, a; reflexivity. Qed.

Lemma char_is_newline (a : byte) :
  (char_to_int char_signed a =? 10) = Byte.eqb a "010"%byte.
Proof. destruct char_signed, a; reflexivity. Qed.

Lemma wait_tx_empty_written fuel dev dev' :
  wait_tx_empty io_read fuel dev = Some dev' → written dev' = written dev.
Proof.
  revert dev. induction fuel as [|fuel IH]; intros dev; [done|].
  cbn [wait_tx_empty]. unfold ns16550_io_read.
  destruct (io_read NS16550_LSR_OFFSET (hw dev)) as [lsr h].
  destruct (Z.land lsr NS16550_LSR_TX_EMPTY =? 0).
  - intros Hw. by rewrite (IH _ Hw).
  - by intros [= <-].
Qed.

Lemma wait_tx_empty_mono fuel fuel' dev dev' :
  wait_tx_empty io_read fuel dev = Some dev' → (fuel ≤ fuel')%nat →
  wait_tx_empty io_read fuel' dev = Some dev'.
Proof.
  revert fuel' dev. induction fuel as [|fuel IH]; intros fuel' dev; [done|].
  intros Hw Hle. destruct fuel' as [|fuel']; [lia|].
  cbn [wait_tx_empty] in *.
  destruct (ns16550_io_read io_read NS16550_LSR_OFFSET dev) as [lsr dev1].
  destruct (Z.land lsr NS16550_LSR_TX_EMPTY =? 0); [|done].
  apply IH; [done|lia].
Qed.

Lemma transmitted_app (dev : ns16550_device HW) (h : HW) ws :
  transmitted {| hw := h; written := written dev ++ ws |} =
  transmitted dev ++ (List.filter (λ p, p.1 =? NS16550_THR_OFFSET) ws).*2.
Proof. unfold transmitted. cbn [written]. by rewrite List.filter_app, fmap_app. Qed.

Lemma _putc_spec a dev :
  tx_drains io_read →
  ∃ fuel0 dev', ∀ fuel, (fuel0 ≤ fuel)%nat →
    _putc io_read io_write char_signed fuel a dev = Some dev' ∧
    transmitted dev' = transmitted dev ++ [byte_val a].
Proof.
  intros Hdr. destruct (Hdr dev) as (fuel0 & dev1 & Hw).
  pose proof (wait_tx_empty_written _ _ _ Hw) as Hwr.
  destruct (ns16550_io_read io_read NS16550_LCR_OFFSET dev1) as [lcr dev2] eqn:Hr.
  assert (Hwr2 : written dev2 = written dev).
  { unfold ns16550_io_read in Hr.
    destruct (io_read NS16550_LCR_OFFSET (hw dev1)) as [v h].
    injection Hr as _ <-. done. }
  eexists fuel0, _. intros fuel Hle. unfold _putc.
  rewrite (wait_tx_empty_mono _ _ _ _ Hw Hle), Hr. split; [reflexivity|].
  unfold ns16550_io_write. cbn [written hw].
  rewrite Hwr2, <- app_assoc, transmitted_app. cbn.
  by rewrite char_low_byte.
Qed.

Lemma ns16550_putc_spec a dev :
  tx_drains io_read →
  ∃ fuel0 dev', ∀ fuel, (fuel0 ≤ fuel)%nat →
    ns16550_putc io_read io_write char_signed fuel a dev = Some dev' ∧
    transmitted dev' = transmitted dev ++ (byte_val <$> crlf [a]).
Proof.
  intros Hdr. unfold ns16550_putc, crlf. cbn [flat_map].
  rewrite char_is_newline, app_nil_r.
  destruct (Byte.eqb a "010"%byte).
  - destruct (_putc_spec "013"%byte dev Hdr) as (f1 & dev1 & H1).
    destruct (_putc_spec a dev1 Hdr) as (f2 & dev2 & H2).
    exists (f1 `max` f2)%nat, dev2. intros fuel Hle.
    destruct (H1 fuel) as [-> Ht1]; [lia|].
    destruct (H2 fuel) as [-> Ht2]; [lia|].
    split; [done|]. rewrite Ht2, Ht1, <- app_assoc. done.
  - destruct (_putc_spec a dev Hdr) as (f1 & dev1 & H1).
    exists f1, dev1. intros fuel Hle. by apply H1.
Qed.

Lemma crlf_cons a bs : crlf (a :: bs) = crlf [a] ++ crlf bs.
Proof. unfold crlf. cbn [flat_map]. by rewrite app_nil_r. Qed.

Lemma ns16550_out_loop_spec bs l dev :
  tx_drains io_read → (l ≤ length bs)%nat →
  ∃ fuel0 dev', ∀ fuel, (fuel0 ≤ fuel)%nat →
    ns16550_out_loop io_read io_write char_signed fuel bs l dev = Some dev' ∧
    transmitted dev' = transmitted dev ++ (byte_val <$> crlf (take l bs)).
Proof.
  intros Hdr. revert bs dev. induction l as [|l IH]; intros bs dev Hl.
  { exists 0%nat, dev. intros fuel _. rewrite take_0. cbn.
    by rewrite app_nil_r. }
  destruct bs as [|a bs]; [simpl in Hl; lia|].
  destruct (ns16550_putc_spec a dev Hdr) as (f1 & dev1 & H1).
  destruct (IH bs dev1) as (f2 & dev2 & H2); [simpl in Hl; lia|].
  exists (f1 `max` f2)%nat, dev2. intros fuel Hle.
  cbn [ns16550_out_loop].
  destruct (H1 fuel) as [-> Ht1]; [lia|].
  destruct (H2 fuel) as [-> Ht2]; [lia|].
  split; [done|].
  rewrite Ht2, Ht1, <- app_assoc, <- fmap_app. cbn [take].
  by rewrite (crlf_cons a (take l bs)).
Qed.

(** C8. For a buffer [bs] (an object, so of a size within [__ssz]) and a
    length [len] within it, once the transmitter drains,
    [ns16550_out] returns [len], and what it stores into the transmit holding
    register is the bytes of the buffer in order, each line feed preceded by
    a carriage return and every byte otherwise unchanged. *)
Theorem ns16550_out_translates bs len dev :
  tx_drains io_read →
  0 ≤ len ≤ Z.of_nat (length bs) →
  Z.of_nat (length bs) ≤ SSZ_MAX →
  ∃ fuel0 dev', ∀ fuel, (fuel0 ≤ fuel)%nat →
    ns16550_out io_read io_write char_signed fuel (Some bs) len dev =
      Some (len, dev') ∧
    transmitted dev' =
      transmitted dev ++ (byte_val <$> crlf (take (Z.to_nat len) bs)).
Proof.
  intros Hdr Hlen Hbs.
  destruct (ns16550_out_loop_spec bs (Z.to_nat len) dev Hdr) as (f0 & dev' & H);
    [lia|].
  exists f0, dev'. intros fuel Hle. destruct (H fuel Hle) as [Hrun Ht].
  unfold ns16550_out. rewrite Hrun, to_ssz_small by lia. done.
Qed.

End DriverProperties.

(** ** Further properties of console.c *)

Section ConsoleMoreProperties.
Context {T : Target} {Env : Type}.
Implicit Types (r : registry Env) (w : world Env) (d : uk_console Env).

(** *** Lookup *)

Lemma uk_console_get_from_offset r l id k :
  (∀ j x, l !! j = Some x →
     ∃ d, objs r !! x = Some d ∧ dev_id d = to_u16 (k + Z.of_nat j)) →
  0 ≤ k ≤ id → id < 65536 →
  uk_console_get_from r l id = Some (l !! Z.to_nat (id - k)).
Proof.
  revert k. induction l as [|x l IH]; intros k Hl Hk Hid.
  { by rewrite lookup_nil. }
  cbn [uk_console_get_from].
  destruct (Hl 0%nat x eq_refl) as (d & Hd & Hdid).
  rewrite Hd, Hdid, Z.add_0_r, to_u16_small by lia.
  destruct (Z.eqb_spec k id) as [->|Hne].
  - by rewrite Z.sub_diag.
  - rewrite (IH (k + 1)); [| |lia|lia].
    + replace (Z.to_nat (id - k)) with (S (Z.to_nat (id - (k + 1)))) by lia.
      done.
    + intros j y Hj. destruct (Hl (S j) y Hj) as (dy & Hdy & Hidy).
      exists dy. split; [done|]. rewrite Hidy. f_equal. lia.
Qed.

(** X1. After any sequence of registrations from the initial state,
    [uk_console_get] of an id returns the device registered at that position:
    the device that was given the id when there is one (the earliest of them
    once the counter has wrapped), and [__NULL] when no device has the id. *)
Theorem uk_console_get_registered (store : gmap loc (uk_console Env)) devs r id :
  register_all devs (registry_init store) = Some r →
  0 ≤ id < 65536 →
  uk_console_get r id = Some (devs !! Z.to_nat id).
Proof.
  intros Hrun Hid.
  destruct (register_all_spec _ _ _ Hrun eq_refl) as (Hl & _ & _ & _ & _ & _ & Hat).
  unfold uk_console_get. rewrite Hl. cbn [registry_init uk_console_device_list app].
  rewrite (uk_console_get_from_offset r devs id 0); [|  |lia|lia].
  - by rewrite Z.sub_0_r.
  - intros j x Hj. destruct (Hat _ _ Hj) as (_ & d' & _ & Hd' & _ & Hid' & _).
    exists d'. split; [done|]. exact Hid'.
Qed.

(** *** What registration leaves alone *)

Lemma uk_console_register_frame l r r' :
  uk_console_register (Some l) r = Some r' →
  ∀ x d, objs r !! x = Some d →
    ∃ d', objs r' !! x = Some d' ∧
          dev_name d' = dev_name d ∧ dev_ops d' = dev_ops d ∧
          (x ≠ l → d' = d).
Proof.
  unfold uk_console_register. intros H x d Hx.
  destruct (objs r !! l) as [dl|] eqn:Hd; [|done].
  destruct (dev_ops dl) as [o|] eqn:Ho; [|done].
  destruct (decide (l ∈ uk_console_device_list r)) as [|Hnotin]; [done|].
  injection H as <-. cbn [objs].
  destruct (decide (x = l)) as [->|Hne].
  - rewrite lookup_insert_eq. rewrite Hx in Hd. injection Hd as <-.
    eexists. split; [reflexivity|]. cbn. by rewrite Ho.
  - rewrite lookup_insert_ne by done. exists d. done.
Qed.

Lemma register_all_frame devs r r' :
  register_all devs r = Some r' →
  ∀ x d, objs r !! x = Some d →
    ∃ d', objs r' !! x = Some d' ∧
          dev_name d' = dev_name d ∧ dev_ops d' = dev_ops d ∧
          (x ∉ devs → d' = d).
Proof.
  revert r. induction devs as [|dev devs IH]; intros r Hrun x d Hx.
  { injection Hrun as <-. exists d. done. }
  cbn [register_all] in Hrun.
  destruct (uk_console_register (Some dev) r) as [r1|] eqn:Hreg; [|done].
  destruct (uk_console_register_frame _ _ _ Hreg x d Hx)
    as (d1 & Hd1 & Hn1 & Ho1 & He1).
  destruct (IH r1 Hrun x d1 Hd1) as (d' & Hd' & Hn' & Ho' & He').
  exists d'. split; [done|]. split; [congruence|]. split; [congruence|].
  intros [Hne Hnotin]%not_elem_of_cons.
  rewrite (He' Hnotin). by apply He1.
Qed.

(** X2. Registration writes only the flags and the id of the devices it is given:
    after any sequence of registrations from the initial state the list holds
    exactly those devices in order, no device object has appeared or gone,
    every object keeps its name and its contract, and the object of a device
    that was not registered is unchanged. *)
Theorem registration_frame (store : gmap loc (uk_console Env)) devs r :
  register_all devs (registry_init store) = Some r →
  uk_console_device_list r = devs ∧
  (∀ x, store !! x = None → objs r !! x = None) ∧
  ∀ x d, store !! x = Some d →
    ∃ d', objs r !! x = Some d' ∧
          dev_name d' = dev_name d ∧ dev_ops d' = dev_ops d ∧
          (x ∉ devs → d' = d).
Proof.
  intros Hrun.
  destruct (register_all_spec _ _ _ Hrun eq_refl) as (Hl & _ & _ & _ & _ & Hobjs & Hat).
  split; [exact Hl|]. split.
  - intros x Hx.
    assert (Hnotin : x ∉ devs).
    { intros [i Hi]%list_elem_of_lookup.
      destruct (Hat _ _ Hi) as (d & _ & Hd & _).
      cbn [registry_init objs] in Hd. congruence. }
    by rewrite (Hobjs _ Hnotin).
  - intros x d Hx. by apply (register_all_frame _ _ _ Hrun).
Qed.

(** *** The counter and the ids, without a bound *)

(** X3. After [N] registrations from the initial state [uk_console_count] is
    [N mod 65536], and the device registered at position [i] has id
    [i mod 65536]. *)
Theorem register_ids_modular (store : gmap loc (uk_console Env)) devs r :
  register_all devs (registry_init store) = Some r →
  uk_console_count r = Z.of_nat (length devs) mod 65536 ∧
  ∀ i dev, devs !! i = Some dev →
    ∃ d', objs r !! dev = Some d' ∧ dev_id d' = Z.of_nat i mod 65536.
Proof.
  intros Hrun.
  destruct (register_all_spec _ _ _ Hrun eq_refl) as (_ & Hc & _ & _ & _ & _ & Hat).
  split; [exact Hc|].
  intros i dev Hi. destruct (Hat _ _ Hi) as (_ & d' & _ & Hd' & _ & Hid & _).
  exists d'. split; [done|exact Hid].
Qed.

(** *** The first console *)

(** X4. Once a device has been registered, the latch is set and the device
    registered first has non-zero flags, its own or the two it was given. *)
Theorem first_console_flagged (store : gmap loc (uk_console Env)) first rest r :
  register_all (first :: rest) (registry_init store) = Some r →
  uk_console_set_standard_once r ≠ 0 ∧
  ∃ d', objs r !! first = Some d' ∧ dev_flags d' ≠ 0.
Proof.
  intros Hrun.
  destruct (register_all_spec _ _ _ Hrun eq_refl) as (_ & _ & Ho & _ & _ & _ & Hat).
  split; [by apply Ho|].
  destruct (Hat 0%nat first eq_refl) as (d & d' & _ & Hd' & _ & _ & Hfl).
  exists d'. split; [done|]. rewrite Hfl.
  cbn [registry_init uk_console_set_standard_once].
  destruct (Z.eqb_spec (dev_flags d) 0) as [Hz|Hnz]; cbn; [|done].
  intros Hc. apply Z.lor_eq_0_iff in Hc as [Hc _]. by apply FLAG_STDOUT_nonzero.
Qed.

(** X5. A device registered first without flags heads the default outputs when
    it has an [out], and the default inputs when it has an [in]. *)
Theorem first_console_is_default (store : gmap loc (uk_console Env))
    first rest r d o :
  register_all (first :: rest) (registry_init store) = Some r →
  store !! first = Some d → dev_flags d = 0 → dev_ops d = Some o →
  (∀ f, ops_out o = Some f → head (stdout_targets r) = Some (first, f)) ∧
  (∀ f, ops_in o = Some f → head (stdin_sources r) = Some (first, f)).
Proof.
  intros Hrun Hd Hz Ho.
  destruct (register_all_spec _ _ _ Hrun eq_refl) as (Hl & _ & _ & _ & _ & _ & Hat).
  destruct (Hat 0%nat first eq_refl) as (d0 & d' & Hd0 & Hd' & _ & _ & Hfl).
  cbn [registry_init objs uk_console_set_standard_once] in Hd0, Hfl.
  rewrite Hd in Hd0. injection Hd0 as <-. rewrite Hz in Hfl.
  change (dev_flags d' = Z.lor UK_CONSOLE_FLAG_STDOUT UK_CONSOLE_FLAG_STDIN) in Hfl.
  destruct (register_all_frame _ _ _ Hrun first d Hd) as (d'' & Hd'' & _ & Hops & _).
  rewrite Hd' in Hd''. injection Hd'' as <-. rewrite Ho in Hops.
  unfold stdout_targets, stdin_sources. rewrite Hl.
  cbn [registry_init uk_console_device_list app omap list_omap].
  split; intros f Hf.
  - assert (Ht : stdout_target r first = Some (first, f)).
    { unfold stdout_target, flag_set. rewrite Hd', Hfl, Hops, Hf.
      destruct (Z.eqb_spec (Z.land (Z.lor UK_CONSOLE_FLAG_STDOUT UK_CONSOLE_FLAG_STDIN)
                              UK_CONSOLE_FLAG_STDOUT) 0) as [Hc|_]; [|done].
      rewrite Z.land_comm, Z.land_lor_distr_r, Z.land_diag in Hc.
      apply Z.lor_eq_0_iff in Hc as [Hc _]. by apply FLAG_STDOUT_nonzero in Hc. }
    by rewrite Ht.
  - assert (Ht : stdin_source r first = Some (first, f)).
    { unfold stdin_source, flag_set. rewrite Hd', Hfl, Hops, Hf.
      destruct (Z.eqb_spec (Z.land (Z.lor UK_CONSOLE_FLAG_STDOUT UK_CONSOLE_FLAG_STDIN)
                              UK_CONSOLE_FLAG_STDIN) 0) as [Hc|_]; [|done].
      rewrite Z.land_comm, Z.land_lor_distr_r, Z.land_diag in Hc.
      apply Z.lor_eq_0_iff in Hc as [_ Hc]. by apply FLAG_STDIN_nonzero in Hc. }
    by rewrite Ht.
Qed.

(** *** The buffer of an aggregate read *)

Lemma call_in_mem l f b len w rc w' :
  call_in l f b len w = Some (rc, w') →
  length (mem w') = length (mem w) ∧
  ∀ j, (j < b ∨ b + Z.to_nat len ≤ j)%nat → mem w' !! j = mem w !! j.
Proof.
  unfold call_in. destruct (f l len (env w)) as [[rc0 data] e].
  intros [= <- <-]. cbn [mem]. split; [apply length_inserts|].
  intros j [Hj|Hj].
  - by apply list_lookup_inserts_lt.
  - apply list_lookup_inserts_ge. rewrite length_take. lia.
Qed.

Lemma uk_console_in_loop_mem r l buf leftover w :
  (∀ x, x ∈ l → ∃ d, objs r !! x = Some d ∧ is_Some (dev_ops d)) →
  0 < leftover →
  ∃ left' w',
    uk_console_in_loop r l buf leftover w = Some (left', w') ∧
    length (mem w') = length (mem w) ∧
    ∀ j, (j < buf ∨ buf + Z.to_nat leftover ≤ j)%nat → mem w' !! j = mem w !! j.
Proof.
  intros Hwf. revert buf leftover w.
  induction l as [|x l IH]; intros buf leftover w Hpos.
  { by exists leftover, w. }
  destruct (Hwf x) as (d & Hd & Ho); [left|].
  assert (Hwf' : ∀ y, y ∈ l → ∃ d, objs r !! y = Some d ∧ is_Some (dev_ops d))
    by (intros y Hy; apply Hwf; by right).
  specialize (IH Hwf').
  destruct (stdin_source r x) as [[x' f]|] eqn:Hs.
  2:{ rewrite (uk_console_in_loop_skip _ _ _ _ _ _ _ Hd Ho Hs). by apply IH. }
  pose proof (stdin_source_fst _ _ _ Hs) as Hx. simpl in Hx. subst x'.
  destruct (call_in_defined x f buf leftover w) as (rc & w1 & Hc).
  assert (Hnz0 : leftover ≠ 0) by lia.
  rewrite (uk_console_in_loop_call _ _ _ _ _ _ _ _ _ Hs Hnz0 Hc).
  apply call_in_mem in Hc as [Hlen1 Hout1].
  destruct ((0 <=? rc) && (rc <=? leftover)) eqn:Hok.
  - apply andb_true_iff in Hok as [H0%Z.leb_le Hle%Z.leb_le].
    destruct (Z.eqb_spec (leftover - rc) 0) as [Hz|Hnz].
    + by exists (leftover - rc), w1.
    + assert (Hpos' : 0 < leftover - rc) by lia.
      destruct (IH (buf + Z.to_nat rc)%nat (leftover - rc) w1 Hpos')
        as (left' & w' & Hrun & Hlen' & Hout').
      exists left', w'. split; [done|]. split; [congruence|].
      intros j Hj. rewrite Hout', Hout1 by lia. done.
  - destruct (IH buf leftover w1 Hpos) as (left' & w' & Hrun & Hlen' & Hout').
    exists left', w'. split; [done|]. split; [congruence|].
    intros j Hj. rewrite Hout', Hout1 by lia. done.
Qed.

(** X6. Whatever the devices return, [uk_console_in] lets them store only inside
    the buffer it was given: the array keeps its size and every byte before
    [buf] or from [buf + len] on is unchanged. *)
Theorem uk_console_in_confined r buf len w :
  wf_registry r →
  0 < len →
  ∃ rc w',
    uk_console_in r (Some buf) len w = Some (rc, w') ∧
    length (mem w') = length (mem w) ∧
    ∀ j, (j < buf ∨ buf + Z.to_nat len ≤ j)%nat → mem w' !! j = mem w !! j.
Proof.
  intros [_ Hwf] Hlen. unfold uk_console_in.
  destruct (Z.eqb_spec len 0) as [|_]; [lia|].
  destruct (uk_console_in_loop_mem r (uk_console_device_list r) buf len w Hwf Hlen)
    as (left' & w' & Hrun & Hl & Hout).
  exists (to_ssz (len - left')), w'.
  rewrite (io_bind_Some _ _ _ _ _ Hrun). done.
Qed.

(** *** The requests of an aggregate read *)

Lemma in_trace_prefix devs buf leftover cs :
  in_trace devs buf leftover cs → call_dev <$> cs `prefix_of` devs.
Proof.
  revert buf leftover cs.
  induction devs as [|dev devs IH]; intros buf leftover [|c cs] Htr;
    try done; try apply prefix_nil.
  destruct Htr as [Hargs Htr].
  assert (Hdev : call_dev c = dev) by (by injection Hargs).
  cbn [fmap list_fmap]. rewrite Hdev. apply prefix_cons.
  destruct (leftover - accepted c =? 0).
  - subst cs. apply prefix_nil.
  - by eapply IH.
Qed.

Lemma in_trace_requests devs buf leftover cs :
  in_trace devs buf leftover cs → 0 < leftover →
  Forall (suffix_request buf leftover) cs.
Proof.
  revert buf leftover cs.
  induction devs as [|dev devs IH]; intros buf leftover [|c cs] Htr Hpos;
    try done; try apply Forall_nil_2.
  destruct Htr as [Hargs Htr].
  assert (Hop : call_op c = IN) by (by injection Hargs).
  assert (Hbuf : call_buf c = buf) by (by injection Hargs).
  assert (Hlen : call_len c = leftover) by (by injection Hargs).
  pose proof (accepted_bounds c ltac:(lia)) as Hb.
  constructor.
  { unfold suffix_request. rewrite Hop, Hbuf, Hlen. done. }
  destruct (Z.eqb_spec (leftover - accepted c) 0) as [|Hnz].
  { subst cs. constructor. }
  assert (Hpos' : 0 < leftover - accepted c) by lia.
  eapply Forall_impl; [exact (IH _ _ _ Htr Hpos')|].
  intros c' (Hop' & Hlen' & Hend'). unfold suffix_request.
  split; [done|]. split; [done|]. lia.
Qed.

Lemma in_trace_short devs buf leftover cs :
  in_trace devs buf leftover cs → 0 < leftover →
  sum_accepted cs < leftover → length cs = length devs.
Proof.
  revert buf leftover cs.
  induction devs as [|dev devs IH]; intros buf leftover [|c cs] Htr Hpos Hsum;
    try done.
  destruct Htr as [Hargs Htr].
  assert (Hlen : call_len c = leftover) by (by injection Hargs).
  pose proof (accepted_bounds c ltac:(lia)) as Hb.
  cbn [sum_accepted foldr] in Hsum. fold (sum_accepted cs) in Hsum.
  destruct (Z.eqb_spec (leftover - accepted c) 0) as [Hz|Hnz].
  { subst cs. cbn in Hsum. lia. }
  cbn [length]. f_equal. eapply IH; [exact Htr|lia|lia].
Qed.

(** X7. Whatever the devices return, the calls of [uk_console_in] go to the
    stdin devices in registration order without skipping one; each asks an
    [in] for a non-empty piece of the buffer that reaches to its end; and
    when the total accepted is less than [len], every stdin device has been
    asked. *)
Theorem uk_console_in_requests r buf len w :
  wf_registry r →
  0 < len →
  ∃ rc w' new,
    uk_console_in r (Some buf) len w = Some (rc, w') ∧
    rc = to_ssz (sum_accepted new) ∧
    calls w' = calls w ++ new ∧
    call_dev <$> new `prefix_of` (stdin_sources r).*1 ∧
    Forall (suffix_request buf len) new ∧
    (sum_accepted new < len → length new = length (stdin_sources r)).
Proof.
  intros [_ Hwf] Hlen. unfold uk_console_in.
  destruct (Z.eqb_spec len 0) as [|_]; [lia|].
  destruct (uk_console_in_loop_trace r (uk_console_device_list r) buf len w Hwf Hlen)
    as (left' & w' & new & Hrun & Hcalls & Hb & Hsum & Htr).
  exists (to_ssz (len - left')), w', new.
  rewrite (io_bind_Some _ _ _ _ _ Hrun). unfold io_ret.
  split; [done|]. split; [by rewrite Hsum|]. split; [done|].
  split; [by eapply in_trace_prefix|].
  split; [by eapply in_trace_requests|].
  intros Hshort. unfold stdin_sources.
  rewrite (in_trace_short _ _ _ _ Htr Hlen Hshort). by rewrite length_fmap.
Qed.

(** *** Broadcast as direct writes *)

Lemma uk_console_out_direct_target r x f buf len :
  stdout_target r x = Some (x, f) → len ≠ 0 →
  uk_console_out_direct r (Some x) (Some buf) len = call_out x f buf len.
Proof.
  unfold stdout_target, uk_console_out_direct. intros Ht Hlen.
  destruct (Z.eqb_spec len 0) as [|_]; [done|].
  unfold io_bind, deref.
  destruct (objs r !! x) as [d|]; [|done].
  destruct (flag_set d UK_CONSOLE_FLAG_STDOUT); [|done].
  destruct (dev_ops d) as [o|]; [|done].
  destruct (ops_out o) as [f'|]; [|done].
  by injection Ht as ->.
Qed.

Lemma uk_console_out_loop_direct r l buf len w :
  (∀ x, x ∈ l → ∃ d, objs r !! x = Some d ∧ is_Some (dev_ops d)) →
  len ≠ 0 →
  uk_console_out_loop r l (Some buf) len w =
  out_direct_each r (omap (stdout_target r) l).*1 (Some buf) len w.
Proof.
  intros Hwf Hlen. revert w.
  induction l as [|x l IH]; intros w; [done|].
  destruct (Hwf x) as (d & Hd & Ho); [left|].
  assert (Hwf' : ∀ y, y ∈ l → ∃ d, objs r !! y = Some d ∧ is_Some (dev_ops d))
    by (intros y Hy; apply Hwf; by right).
  specialize (IH Hwf').
  rewrite (uk_console_out_loop_cons _ _ _ _ _ _ _ Hd Ho Hlen).
  cbn [omap list_omap].
  destruct (stdout_target r x) as [[x' f]|] eqn:Ht; [|by apply IH].
  pose proof (stdout_target_fst _ _ _ Ht) as Hx. simpl in Hx. subst x'.
  cbn [fmap list_fmap fst out_direct_each].
  rewrite (uk_console_out_direct_target _ _ _ _ _ Ht Hlen).
  unfold io_bind. destruct (call_out x f buf len w) as [[rc w1]|]; [|done].
  apply IH.
Qed.

(** X8. With a non-null [buf] and a non-zero [len], [uk_console_out] does what
    [uk_console_out_direct] does on each default output in registration
    order, and returns [len] as an [__ssz] in place of their results. *)
Theorem uk_console_out_as_direct r buf len w :
  wf_registry r →
  len ≠ 0 →
  uk_console_out r (Some buf) len w =
  (out_direct_each r (stdout_targets r).*1 (Some buf) len ;;;
   io_ret (to_ssz len)) w.
Proof.
  intros [_ Hwf] Hlen. unfold uk_console_out.
  destruct (Z.eqb_spec len 0) as [|_]; [done|].
  unfold io_bind. by rewrite (uk_console_out_loop_direct _ _ _ _ _ Hwf Hlen).
Qed.

(** *** No default device *)

Lemma uk_console_in_loop_no_source r l buf leftover w :
  (∀ x, x ∈ l → ∃ d, objs r !! x = Some d ∧ is_Some (dev_ops d)) →
  omap (stdin_source r) l = [] →
  uk_console_in_loop r l buf leftover w = Some (leftover, w).
Proof.
  intros Hwf. induction l as [|x l IH]; intros Hnone; [done|].
  destruct (Hwf x) as (d & Hd & Ho); [left|].
  cbn [omap list_omap] in Hnone.
  destruct (stdin_source r x) as [t|] eqn:Hs; [done|].
  rewrite (uk_console_in_loop_skip _ _ _ _ _ _ _ Hd Ho Hs).
  apply IH; [|done]. intros y Hy. apply Hwf. by right.
Qed.

(** X9. When no registered device is a default output, [uk_console_out] with a
    valid buffer returns [len] and does nothing; when none is a default
    input, [uk_console_in] returns 0 and does nothing. *)
Theorem no_default_device r buf len w :
  wf_registry r →
  valid_buffer w (Some buf) len →
  len ≠ 0 →
  (stdout_targets r = [] → uk_console_out r (Some buf) len w = Some (len, w)) ∧
  (stdin_sources r = [] → uk_console_in r (Some buf) len w = Some (0, w)).
Proof.
  intros Hwf Hbuf Hlen.
  pose proof (valid_buffer_size _ _ _ Hbuf Hlen) as Hsz. split; intros Hnone.
  - destruct Hwf as [_ Hwf]. unfold uk_console_out.
    destruct (Z.eqb_spec len 0) as [|_]; [done|].
    unfold io_bind. rewrite (uk_console_out_loop_direct _ _ _ _ _ Hwf Hlen).
    fold (stdout_targets r). rewrite Hnone.
    cbn. unfold io_ret. by rewrite to_ssz_small by lia.
  - destruct Hwf as [_ Hwf]. unfold uk_console_in.
    destruct (Z.eqb_spec len 0) as [|_]; [done|].
    unfold io_bind.
    rewrite (uk_console_in_loop_no_source _ _ _ _ _ Hwf Hnone).
    unfold io_ret. rewrite Z.sub_diag, to_ssz_small; [done|].
    unfold SSZ_MAX in *. lia.
Qed.

End ConsoleMoreProperties.

(** ** Properties of the rest of ns16550.c *)

Section DriverMoreProperties.
Context {T : Target} {HW : Type}.
Variable io_read : Z → HW → Z * HW.
Variable io_write : Z → Z → HW → HW.
Variable char_signed : bool.

Lemma dlab_cleared (v : Z) :
  Z.land (Z.land v (to_u32 (Z.lnot NS16550_LCR_DLAB))) NS16550_LCR_DLAB = 0.
Proof.
  rewrite <- Z.land_assoc.
  change (Z.land (to_u32 (Z.lnot NS16550_LCR_DLAB)) NS16550_LCR_DLAB) with 0.
  apply Z.land_0_r.
Qed.

Lemma low_byte_range (v : Z) : 0 ≤ Z.land v 0xff ≤ 255.
Proof.
  replace (Z.land v 0xff) with (v mod 256).
  - pose proof (Z.mod_pos_bound v 256). lia.
  - change 0xff with (Z.ones 8). by rewrite Z.land_ones by lia.
Qed.

Lemma ns16550_io_read_written offset (dev : ns16550_device HW) :
  written (ns16550_io_read io_read offset dev).2 = written dev.
Proof.
  unfold ns16550_io_read. by destruct (io_read offset (hw dev)).
Qed.

Lemma lcr_clears_dlab_transmitted (dev dev' : ns16550_device HW) ws :
  written dev' = written dev ++ ws → lcr_clears_dlab ws →
  transmitted dev' = transmitted dev.
Proof.
  intros Hw Hws. unfold transmitted. rewrite Hw, List.filter_app. clear Hw.
  assert (Hnil : List.filter (λ p : Z * Z, p.1 =? NS16550_THR_OFFSET) ws = []).
  { induction Hws as [|[o v] ws [Ho _] _ IH]; [done|].
    cbn [fst] in Ho. subst o. cbn [List.filter fst]. exact IH. }
  by rewrite Hnil, app_nil_r.
Qed.

(** *** Receiving *)

Lemma ns16550_getc_spec (dev : ns16550_device HW) :
  -1 ≤ (ns16550_getc io_read io_write dev).1 ≤ 255 ∧
  ∃ ws,
    written (ns16550_getc io_read io_write dev).2 = written dev ++ ws ∧
    lcr_clears_dlab ws ∧
    ((ns16550_getc io_read io_write dev).1 < 0 → ws = []).
Proof.
  unfold ns16550_getc.
  pose proof (ns16550_io_read_written NS16550_LSR_OFFSET dev) as H1.
  destruct (ns16550_io_read io_read NS16550_LSR_OFFSET dev) as [lsr dev1].
  cbn [snd] in H1.
  destruct (Z.land lsr NS16550_LSR_RX_EMPTY =? 0).
  { cbn [fst snd]. split; [lia|]. exists []. rewrite app_nil_r.
    split; [done|]. split; [constructor|done]. }
  pose proof (ns16550_io_read_written NS16550_LCR_OFFSET dev1) as H2.
  destruct (ns16550_io_read io_read NS16550_LCR_OFFSET dev1) as [lcr dev2].
  cbn [snd] in H2.
  match goal with
  | |- context [ns16550_io_read io_read NS16550_RBR_OFFSET ?d] =>
      pose proof (ns16550_io_read_written NS16550_RBR_OFFSET d) as H3;
      destruct (ns16550_io_read io_read NS16550_RBR_OFFSET d) as [rbr dev4]
  end.
  cbn [fst snd written ns16550_io_write] in *.
  pose proof (low_byte_range rbr). split; [lia|].
  eexists. split; [rewrite H3, H2, H1; reflexivity|].
  split; [|lia].
  constructor; [|constructor]. split; [done|apply dlab_cleared].
Qed.

Lemma ns16550_getc_empty (dev : ns16550_device HW) :
  Z.land (io_read NS16550_LSR_OFFSET (hw dev)).1 NS16550_LSR_RX_EMPTY = 0 →
  ns16550_getc io_read io_write dev =
    (-1, {| hw := (io_read NS16550_LSR_OFFSET (hw dev)).2; written := written dev |}).
Proof.
  intros Hempty. unfold ns16550_getc, ns16550_io_read.
  destruct (io_read NS16550_LSR_OFFSET (hw dev)) as [lsr h]. cbn [fst] in Hempty.
  by rewrite Hempty.
Qed.

Lemma ns16550_in_loop_spec n i len (dev : ns16550_device HW) :
  0 ≤ i → i + Z.of_nat n = len → len ≤ SSZ_MAX →
  (ns16550_in_loop io_read io_write n i len dev).1.1 =
    i + Z.of_nat (length (ns16550_in_loop io_read io_write n i len dev).1.2) ∧
  (ns16550_in_loop io_read io_write n i len dev).1.1 ≤ len ∧
  ∃ ws,
    written (ns16550_in_loop io_read io_write n i len dev).2 = written dev ++ ws ∧
    lcr_clears_dlab ws.
Proof.
  revert i dev. induction n as [|n IH]; intros i dev Hi Hn Hlen.
  { cbn. rewrite to_ssz_small by lia. split; [lia|]. split; [lia|].
    exists []. rewrite app_nil_r. split; [done|constructor]. }
  cbn [ns16550_in_loop].
  destruct (ns16550_getc_spec dev) as (Hrc & ws1 & Hw1 & Hg1 & _).
  destruct (ns16550_getc io_read io_write dev) as [rc dev1].
  cbn [fst snd] in Hrc, Hw1.
  destruct (Z.ltb_spec rc 0) as [Hneg|Hpos].
  { cbn. rewrite to_ssz_small by lia. split; [lia|]. split; [lia|].
    by exists ws1. }
  destruct (IH (i + 1) dev1) as (Hr & Hle & ws2 & Hw2 & Hg2); [lia..|].
  destruct (ns16550_in_loop io_read io_write n (i + 1) len dev1) as [[r data] dev2].
  cbn [fst snd length] in *. split; [lia|]. split; [done|].
  exists (ws1 ++ ws2). rewrite Hw2, Hw1, <- app_assoc. split; [done|].
  by apply Forall_app.
Qed.

(** X10. [ns16550_in] returns the number of bytes it stored, between 0 and [len];
    it stores to no register but the line control register, with DLAB clear,
    so it transmits nothing; and when the first poll finds the receiver empty
    it returns 0 without a store. *)
Theorem ns16550_in_bounds (con : loc) len (dev : ns16550_device HW) :
  0 ≤ len ≤ SSZ_MAX →
  0 ≤ (ns16550_in io_read io_write con len dev).1.1 ≤ len ∧
  Z.of_nat (length (ns16550_in io_read io_write con len dev).1.2) =
    (ns16550_in io_read io_write con len dev).1.1 ∧
  (∃ ws,
     written (ns16550_in io_read io_write con len dev).2 = written dev ++ ws ∧
     lcr_clears_dlab ws) ∧
  transmitted (ns16550_in io_read io_write con len dev).2 = transmitted dev ∧
  (Z.land (io_read NS16550_LSR_OFFSET (hw dev)).1 NS16550_LSR_RX_EMPTY = 0 →
   (ns16550_in io_read io_write con len dev).1 = (0, []) ∧
   written (ns16550_in io_read io_write con len dev).2 = written dev).
Proof.
  intros Hlen. unfold ns16550_in.
  destruct (ns16550_in_loop_spec (Z.to_nat len) 0 len dev) as (Hr & Hle & ws & Hw & Hg);
    [lia..|].
  split; [lia|]. split; [lia|]. split; [by exists ws|].
  split; [by eapply lcr_clears_dlab_transmitted|].
  intros Hempty. destruct (Z.to_nat len) as [|n] eqn:Hn.
  { cbn. rewrite to_ssz_small by lia. split; [f_equal; lia|done]. }
  cbn [ns16550_in_loop]. rewrite (ns16550_getc_empty dev Hempty).
  cbn. rewrite to_ssz_small; [done|]. lia.
Qed.

(** *** Transmitting *)

Lemma thr_guarded_app ws1 ws2 :
  thr_guarded ws1 → thr_guarded ws2 → thr_guarded (ws1 ++ ws2).
Proof.
  intros (ps1 & -> & H1) (ps2 & -> & H2). exists (ps1 ++ ps2).
  split; [by rewrite flat_map_app|by apply Forall_app].
Qed.

Lemma _putc_log fuel a (dev dev' : ns16550_device HW) :
  _putc io_read io_write char_signed fuel a dev = Some dev' →
  ∃ ws, written dev' = written dev ++ ws ∧ thr_guarded ws.
Proof.
  unfold _putc.
  destruct (wait_tx_empty io_read fuel dev) as [dev1|] eqn:Hw; [|done].
  apply wait_tx_empty_written in Hw.
  pose proof (ns16550_io_read_written NS16550_LCR_OFFSET dev1) as H2.
  destruct (ns16550_io_read io_read NS16550_LCR_OFFSET dev1) as [lcr dev2].
  cbn [snd] in H2. intros [= <-].
  cbn [written ns16550_io_write]. rewrite H2, Hw, <- app_assoc.
  eexists. split; [reflexivity|].
  exists [(Z.land lcr (to_u32 (Z.lnot NS16550_LCR_DLAB)),
           Z.land (char_to_int char_signed a) 255)].
  split; [done|]. constructor; [apply dlab_cleared|constructor].
Qed.

Lemma ns16550_putc_log fuel a (dev dev' : ns16550_device HW) :
  ns16550_putc io_read io_write char_signed fuel a dev = Some dev' →
  ∃ ws, written dev' = written dev ++ ws ∧ thr_guarded ws.
Proof.
  unfold ns16550_putc. destruct (char_to_int char_signed a =? 10).
  - destruct (_putc io_read io_write char_signed fuel "013" dev) as [dev1|] eqn:H1;
      [|done].
    intros H2. apply _putc_log in H1 as (ws1 & Hw1 & Hg1).
    apply _putc_log in H2 as (ws2 & Hw2 & Hg2).
    exists (ws1 ++ ws2). rewrite Hw2, Hw1, <- app_assoc.
    split; [done|by apply thr_guarded_app].
  - apply _putc_log.
Qed.

Lemma ns16550_out_loop_log fuel bs l (dev dev' : ns16550_device HW) :
  ns16550_out_loop io_read io_write char_signed fuel bs l dev = Some dev' →
  ∃ ws, written dev' = written dev ++ ws ∧ thr_guarded ws.
Proof.
  revert bs dev. induction l as [|l IH]; intros bs dev.
  { intros [= <-]. exists []. rewrite app_nil_r. split; [done|].
    exists []. split; [done|constructor]. }
  cbn [ns16550_out_loop]. destruct bs as [|a bs]; [done|].
  destruct (ns16550_putc io_read io_write char_signed fuel a dev) as [dev1|] eqn:H1;
    [|done].
  intros H2. apply ns16550_putc_log in H1 as (ws1 & Hw1 & Hg1).
  apply IH in H2 as (ws2 & Hw2 & Hg2).
  exists (ws1 ++ ws2). rewrite Hw2, Hw1, <- app_assoc.
  split; [done|by apply thr_guarded_app].
Qed.

(** X11. For a buffer that holds [len] bytes, once the transmitter drains,
    [ns16550_out] returns, and the stores it made come in pairs: each store
    to the transmit holding register directly follows a store to the line
    control register that clears DLAB, and no other register is stored to. *)
Theorem ns16550_out_clears_dlab bs len (dev : ns16550_device HW) :
  tx_drains io_read →
  0 ≤ len ≤ Z.of_nat (length bs) →
  ∃ fuel0 dev' ws, ∀ fuel, (fuel0 ≤ fuel)%nat →
    ns16550_out io_read io_write char_signed fuel (Some bs) len dev =
      Some (to_ssz len, dev') ∧
    written dev' = written dev ++ ws ∧
    thr_guarded ws.
Proof.
  intros Hdr Hlen.
  destruct (ns16550_out_loop_spec io_read io_write char_signed bs (Z.to_nat len) dev Hdr)
    as (f0 & dev' & H); [lia|].
  destruct (H f0 (le_n _)) as [Hrun0 _].
  destruct (ns16550_out_loop_log _ _ _ _ _ Hrun0) as (ws & Hw & Hg).
  exists f0, dev', ws. intros fuel Hle. destruct (H fuel Hle) as [Hrun _].
  unfold ns16550_out. by rewrite Hrun.
Qed.

Lemma crlf_length bs : length (crlf bs) = (length bs + line_feeds bs)%nat.
Proof.
  unfold line_feeds. induction bs as [|a bs IH]; [done|].
  rewrite (crlf_cons a bs), length_app, IH. cbn [List.filter].
  unfold crlf. cbn [flat_map]. destruct (Byte.eqb a "010"); cbn; lia.
Qed.

(** X12. For a buffer that holds [len] bytes, once the transmitter drains,
    [ns16550_out] puts [len] bytes on the wire and one more for every line
    feed among them. *)
Theorem ns16550_out_wire_length bs len (dev : ns16550_device HW) :
  tx_drains io_read →
  0 ≤ len ≤ Z.of_nat (length bs) →
  ∃ fuel0 dev', ∀ fuel, (fuel0 ≤ fuel)%nat →
    ns16550_out io_read io_write char_signed fuel (Some bs) len dev =
      Some (to_ssz len, dev') ∧
    length (transmitted dev') =
      (length (transmitted dev) + Z.to_nat len
       + line_feeds (take (Z.to_nat len) bs))%nat.
Proof.
  intros Hdr Hlen.
  destruct (ns16550_out_loop_spec io_read io_write char_signed bs (Z.to_nat len) dev Hdr)
    as (f0 & dev' & H); [lia|].
  exists f0, dev'. intros fuel Hle. destruct (H fuel Hle) as [Hrun Ht].
  unfold ns16550_out. rewrite Hrun. split; [done|].
  rewrite Ht, length_app, length_fmap, crlf_length, length_take. lia.
Qed.

Lemma wait_tx_empty_stuck fuel (dev : ns16550_device HW) :
  tx_stuck io_read → wait_tx_empty io_read fuel dev = None.
Proof.
  intros Hst. revert dev. induction fuel as [|fuel IH]; intros dev; [done|].
  cbn [wait_tx_empty]. unfold ns16550_io_read.
  pose proof (Hst (hw dev)) as Hz.
  destruct (io_read NS16550_LSR_OFFSET (hw dev)) as [lsr h]. cbn [fst] in Hz.
  rewrite Hz. cbn. apply IH.
Qed.

(** X13. While the transmitter never reports empty, [ns16550_out] with a non-zero
    [len] does not return, however long it polls. *)
Theorem ns16550_out_blocks fuel a bs len (dev : ns16550_device HW) :
  tx_stuck io_read →
  0 < len →
  ns16550_out io_read io_write char_signed fuel (Some (a :: bs)) len dev = None.
Proof.
  intros Hst Hlen. unfold ns16550_out.
  destruct (Z.to_nat len) as [|l] eqn:Hl; [lia|].
  cbn [ns16550_out_loop]. unfold ns16550_putc, _putc.
  rewrite (wait_tx_empty_stuck _ _ Hst). by destruct (_ =? 10).
Qed.

(** *** Configuration *)

Lemma line_control_bits (v : Z) :
  let lcr := Z.lor (to_u32 (Z.lor v 4294967232)) NS16550_LCR_8N1 in
  Z.land lcr NS16550_LCR_8N1 = NS16550_LCR_8N1 ∧
  Z.land lcr NS16550_LCR_DLAB = NS16550_LCR_DLAB.
Proof.
  cbv zeta. split; apply Z.bits_inj'; intros n Hn;
    rewrite Z.land_spec, Z.lor_spec.
  - destruct (Z.testbit NS16550_LCR_8N1 n); [by rewrite orb_true_r|].
    by rewrite andb_false_r.
  - change NS16550_LCR_DLAB with (2 ^ 7).
    destruct (decide (n = 7)) as [->|Hne].
    + unfold to_u32. rewrite Z.mod_pow2_bits_low, Z.lor_spec by lia.
      change (Z.testbit 4294967232 7) with true. by rewrite orb_true_r.
    + rewrite Z.pow2_bits_false by lia. apply andb_false_r.
Qed.

(** X14. [ns16550_configure] returns 0 after exactly seven stores, in this order:
    the line control register with DLAB clear, the interrupt enable register
    with bit 0 clear, the FIFO control register with the FIFO enable bit
    clear, the line control register with the word length bits and DLAB both
    set, the line control register again with DLAB clear, and last the two
    divisor bytes 1 and 0, both at offset 0. *)
Theorem ns16550_configure_stores (dev : ns16550_device HW) :
  (ns16550_configure io_read io_write dev).1 = 0 ∧
  ∃ a b c d e,
    written (ns16550_configure io_read io_write dev).2 =
      written dev ++
      [(NS16550_LCR_OFFSET, a); (NS16550_IER_OFFSET, b); (NS16550_FCR_OFFSET, c);
       (NS16550_LCR_OFFSET, d); (NS16550_LCR_OFFSET, e); (0, 1); (0, 0)] ∧
    Z.land a NS16550_LCR_DLAB = 0 ∧
    Z.land b NS16550_IIR_NO_INT = 0 ∧
    Z.land c NS16550_FCR_FIFO_EN = 0 ∧
    Z.land d NS16550_LCR_8N1 = NS16550_LCR_8N1 ∧
    Z.land d NS16550_LCR_DLAB = NS16550_LCR_DLAB ∧
    Z.land e NS16550_LCR_DLAB = 0.
Proof.
  unfold ns16550_configure.
  repeat match goal with
  | |- context [ns16550_io_read io_read ?o ?d] =>
      let H := fresh "Hr" in
      let v := fresh "v" in
      let d' := fresh "dev" in
      pose proof (ns16550_io_read_written o d) as H;
      destruct (ns16550_io_read io_read o d) as [v d'];
      cbn [snd written ns16550_io_write] in H
  end.
  cbn [fst snd written ns16550_io_write]. split; [done|].
  do 5 eexists. split.
  { rewrite Hr3, Hr2, Hr1, Hr0, Hr. rewrite <- !app_assoc. reflexivity. }
  assert (Hbit0 : ∀ x, Z.land (Z.land x (to_u32 (Z.lnot 1))) 1 = 0).
  { intros x. rewrite <- Z.land_assoc.
    change (Z.land (to_u32 (Z.lnot 1)) 1) with 0. apply Z.land_0_r. }
  split; [apply dlab_cleared|]. split; [apply Hbit0|]. split; [apply Hbit0|].
  split; [apply (line_control_bits _)|]. split; [apply (line_control_bits _)|].
  apply dlab_cleared.
Qed.

End DriverMoreProperties.

(** ** The properties at concrete inputs *)

#[local] Existing Instance lp64.

Lemma ex_registry_reached :
  register_all ex_devs (registry_init ex_store) = Some ex_registry.
Proof. vm_compute. reflexivity. Qed.

Lemma ex_registry_failing_reached :
  register_all ex_devs (registry_init ex_store_failing) = Some ex_registry_failing.
Proof. vm_compute. reflexivity. Qed.

Lemma ex_registry_wf : wf_registry ex_registry.
Proof. exact (reachable_wf _ _ _ ex_registry_reached). Qed.

Lemma ex_registry_failing_wf : wf_registry ex_registry_failing.
Proof. exact (reachable_wf _ _ _ ex_registry_failing_reached). Qed.

Lemma ex_registry_sources :
  stdin_sources ex_registry = [(1%positive, ex_in); (2%positive, ex_in)].
Proof. vm_compute. reflexivity. Qed.

Lemma ex_in_returns_available : returns_available ex_in.
Proof.
  intros l len e Hlen. unfold ex_in. cbn [fst snd].
  rewrite length_take. split; lia.
Qed.

Lemma ex_world_buffer (len : Z) :
  0 ≤ len ≤ 10 → valid_buffer ex_world (Some 0%nat) len.
Proof.
  intros. exists 0%nat. change SSZ_MAX with 9223372036854775807.
  change (Z.of_nat (length (mem ex_world))) with 10.
  repeat split; [lia..|discriminate].
Qed.

Lemma uk_console_out_invalid_witness :
  5 ≠ 0 ∧
  uk_console_out ex_registry (Some 0%nat) 0 ex_world = Some (0, ex_world) ∧
  uk_console_out ex_registry None 5 ex_world = Some (-22, ex_world) ∧
  -22 < 0.
Proof.
  assert (H : 5 ≠ 0) by discriminate.
  exact (conj H (uk_console_out_invalid ex_registry (Some 0%nat) 5 ex_world H)).
Defined.

Lemma direct_io_invalid_iff_witness :
  5 ≠ 0 ∧
  (uk_console_out_direct ex_registry (Some 1%positive) None 5 ex_world
     = Some (-22, ex_world) ↔
   None = @None nat ∨ Some 1%positive = None ∨
   null_ops ex_registry (Some 1%positive) ∨
   lacks ops_out ex_registry (Some 1%positive)) ∧
  (uk_console_in_direct ex_registry (Some 1%positive) None 5 ex_world
     = Some (-22, ex_world) ↔
   None = @None nat ∨ Some 1%positive = None ∨
   null_ops ex_registry (Some 1%positive) ∨
   lacks ops_in ex_registry (Some 1%positive)).
Proof.
  assert (H : 5 ≠ 0) by discriminate.
  exact (conj H (direct_io_invalid_iff ex_registry (Some 1%positive) None 5 ex_world H)).
Defined.

Lemma uk_console_out_broadcast_witness :
  wf_registry ex_registry ∧ valid_buffer ex_world (Some 0%nat) 3 ∧ 3 ≠ 0 ∧
  ∃ w' new,
    uk_console_out ex_registry (Some 0%nat) 3 ex_world = Some (3, w') ∧
    mem w' = mem ex_world ∧
    Z.of_nat (length (buffer_bytes ex_world 0%nat 3)) = 3 ∧
    env w' = deliver (stdout_targets ex_registry)
               (buffer_bytes ex_world 0%nat 3) 3 (env ex_world) ∧
    calls w' = calls ex_world ++ new ∧
    call_args <$> new =
      (λ t, (OUT, t.1, 0%nat, 3)) <$> stdout_targets ex_registry ∧
    NoDup (call_dev <$> new).
Proof.
  assert (H : valid_buffer ex_world (Some 0%nat) 3) by (apply ex_world_buffer; lia).
  assert (Hnz : 3 ≠ 0) by discriminate.
  exact (conj ex_registry_wf (conj H (conj Hnz
           (uk_console_out_broadcast ex_registry 0%nat 3 ex_world
              ex_registry_wf H Hnz)))).
Defined.

(** The example of the specification: "hi\n" goes to A, then to B, and the
    result is 3 although each device accepted one byte. *)
Example ex_broadcast :
  (λ p, (p.1, calls p.2)) <$>
    uk_console_out ex_registry (Some 0%nat) 3 ex_world =
  Some (3, [Call OUT 1%positive 0%nat 3 1; Call OUT 2%positive 0%nat 3 1]).
Proof. vm_compute. reflexivity. Qed.

Lemma uk_console_in_bounded_witness :
  wf_registry ex_registry_failing ∧ valid_buffer ex_world (Some 0%nat) 4 ∧ 4 ≠ 0 ∧
  ∃ rc w' new,
    uk_console_in ex_registry_failing (Some 0%nat) 4 ex_world = Some (rc, w') ∧
    0 ≤ rc ≤ 4 ∧
    calls w' = calls ex_world ++ new ∧
    rc = sum_accepted new ∧
    ∀ c, c ∈ new → call_ret c < 0 ∨ call_len c < call_ret c → accepted c = 0.
Proof.
  assert (H : valid_buffer ex_world (Some 0%nat) 4) by (apply ex_world_buffer; lia).
  assert (Hnz : 4 ≠ 0) by discriminate.
  exact (conj ex_registry_failing_wf (conj H (conj Hnz
           (uk_console_in_bounded ex_registry_failing 0%nat 4 ex_world
              ex_registry_failing_wf H Hnz)))).
Defined.

Lemma uk_console_in_negative_continues_witness :
  wf_registry ex_registry_failing ∧ valid_buffer ex_world (Some 0%nat) 4 ∧ 4 ≠ 0 ∧
  ∃ rc w' new,
    uk_console_in ex_registry_failing (Some 0%nat) 4 ex_world = Some (rc, w') ∧
    calls w' = calls ex_world ++ new ∧
    rc = sum_accepted new ∧
    ∀ i c, new !! i = Some c → call_ret c < 0 →
      (stdin_sources ex_registry_failing).*1 !! i = Some (call_dev c) ∧
      accepted c = 0 ∧
      ∀ dev', (stdin_sources ex_registry_failing).*1 !! S i = Some dev' →
        ∃ c', new !! S i = Some c' ∧
              call_args c' = (IN, dev', call_buf c, call_len c).
Proof.
  assert (H : valid_buffer ex_world (Some 0%nat) 4) by (apply ex_world_buffer; lia).
  assert (Hnz : 4 ≠ 0) by discriminate.
  exact (conj ex_registry_failing_wf (conj H (conj Hnz
           (uk_console_in_negative_continues ex_registry_failing 0%nat 4 ex_world
              ex_registry_failing_wf H Hnz)))).
Defined.

(** The example of the specification: A has "ab", B has "cdefg", and a read
    of 4 bytes returns 4 with "abcd" in the buffer. *)
Lemma uk_console_in_aggregate_witness :
  wf_registry ex_registry ∧ valid_buffer ex_world (Some 0%nat) 4 ∧ 4 ≠ 0 ∧
  Forall (λ s, returns_available s.2) (stdin_sources ex_registry) ∧
  ∃ w' new,
    uk_console_in ex_registry (Some 0%nat) 4 ex_world = Some (4, w') ∧
    take 4 (mem w') = ["a"; "b"; "c"; "d"]%byte ∧
    calls w' = new ∧
    call_args <$> new = [(IN, 1%positive, 0%nat, 4); (IN, 2%positive, 2%nat, 2)].
Proof.
  assert (H : valid_buffer ex_world (Some 0%nat) 4) by (apply ex_world_buffer; lia).
  assert (Hnz : 4 ≠ 0) by discriminate.
  assert (Hav : Forall (λ s, returns_available s.2) (stdin_sources ex_registry)).
  { rewrite ex_registry_sources.
    apply Forall_cons; split; [exact ex_in_returns_available|].
    apply Forall_cons; split; [exact ex_in_returns_available|].
    apply Forall_nil_2. }
  split; [exact ex_registry_wf|]. split; [exact H|]. split; [exact Hnz|].
  split; [exact Hav|].
  destruct (uk_console_in_aggregate ex_registry 0%nat 4 ex_world
              ex_registry_wf H Hnz Hav)
    as (w' & new & Hrun & _ & _ & Hmem & _ & Hcalls & Hargs & _).
  exists w', new. rewrite Hrun, Hmem, Hcalls, Hargs.
  vm_compute. repeat split.
Defined.

Lemma register_flag_promotion_witness :
  register_all ex_devs (registry_init ex_store) = Some ex_registry ∧
  ∀ i dev, ex_devs !! i = Some dev →
    ∃ d d',
      ex_store !! dev = Some d ∧ objs ex_registry !! dev = Some d' ∧
      (i = 0%nat → dev_flags d = 0 →
         dev_flags d' = Z.lor UK_CONSOLE_FLAG_STDOUT UK_CONSOLE_FLAG_STDIN ∧
         flag_set d' UK_CONSOLE_FLAG_STDOUT = true ∧
         flag_set d' UK_CONSOLE_FLAG_STDIN = true) ∧
      ((0 < i)%nat → dev_flags d = 0 → dev_flags d' = 0) ∧
      (dev_flags d ≠ 0 → dev_flags d' = dev_flags d) ∧
      (∀ first d0, ex_devs !! 0%nat = Some first → ex_store !! first = Some d0 →
         dev_flags d0 = UK_CONSOLE_FLAG_STDOUT →
         (0 < i)%nat → dev_flags d = 0 →
         dev_flags d' = 0 ∧
         ∃ d0', objs ex_registry !! first = Some d0' ∧
                dev_flags d0' = UK_CONSOLE_FLAG_STDOUT).
Proof.
  exact (conj ex_registry_reached
           (register_flag_promotion ex_store ex_devs ex_registry ex_registry_reached)).
Defined.

(** The flags of A, B and C after their registration: A was given both
    flags, B kept its own, C kept none. *)
Example ex_registry_flags :
  (λ l, dev_flags <$> objs ex_registry !! l) <$> ex_devs = [Some 3; Some 3; Some 0].
Proof. vm_compute. reflexivity. Qed.

Lemma ex_devs_NoDup : NoDup ex_devs.
Proof. apply (bool_decide_unpack _). vm_compute. exact I. Qed.

Lemma ex_devs_in_store x :
  x ∈ ex_devs → ∃ d, ex_store !! x = Some d ∧ is_Some (dev_ops d).
Proof.
  unfold ex_devs. intros Hx.
  repeat (apply elem_of_cons in Hx as [->|Hx]);
    [eexists; split; [reflexivity|by eexists]..|].
  by apply not_elem_of_nil in Hx.
Qed.

Lemma register_ids_sequential_witness :
  NoDup ex_devs ∧
  (∀ x, x ∈ ex_devs → ∃ d, ex_store !! x = Some d ∧ is_Some (dev_ops d)) ∧
  Z.of_nat (length ex_devs) ≤ 65536 ∧
  (3 ≤ length ex_devs)%nat ∧
  ∃ rk,
    register_all (take 3 ex_devs) (registry_init ex_store) = Some rk ∧
    (Z.of_nat 3 ≤ 65535 → uk_console_count rk = Z.of_nat 3) ∧
    ∀ i dev, (i < 3)%nat → ex_devs !! i = Some dev →
      ∃ d', objs rk !! dev = Some d' ∧ dev_id d' = Z.of_nat i.
Proof.
  assert (Hlen : Z.of_nat (length ex_devs) ≤ 65536) by (vm_compute; discriminate).
  assert (Hk : (3 ≤ length ex_devs)%nat) by (vm_compute; lia).
  exact (conj ex_devs_NoDup (conj ex_devs_in_store (conj Hlen (conj Hk
           (register_ids_sequential ex_store ex_devs ex_devs_NoDup
              ex_devs_in_store Hlen 3%nat Hk))))).
Defined.

(** The ids of A, B and C, and the count, after their registration. *)
Example ex_registry_ids :
  (λ l, dev_id <$> objs ex_registry !! l) <$> ex_devs = [Some 0; Some 1; Some 2] ∧
  uk_console_count ex_registry = 3.
Proof. vm_compute. split; reflexivity. Qed.

Lemma ex_tx_drains : tx_drains ex_io_read.
Proof.
  intros [h ws]. exists (S h). revert ws.
  induction h as [|h IH]; intros ws.
  - cbn. by eexists.
  - change (wait_tx_empty ex_io_read (S (S h)) {| hw := S h; written := ws |})
      with (wait_tx_empty ex_io_read (S h) {| hw := h; written := ws |}).
    apply IH.
Qed.

Lemma ns16550_out_translates_witness :
  tx_drains ex_io_read ∧
  0 ≤ 3 ≤ Z.of_nat (length ["h"; "i"; "010"]%byte) ∧
  Z.of_nat (length ["h"; "i"; "010"]%byte) ≤ SSZ_MAX ∧
  ∃ fuel0 dev', ∀ fuel, (fuel0 ≤ fuel)%nat →
    ns16550_out ex_io_read ex_io_write true fuel
      (Some ["h"; "i"; "010"]%byte) 3 ex_uart = Some (3, dev') ∧
    transmitted dev' = transmitted ex_uart ++ [104; 105; 13; 10].
Proof.
  assert (H : 0 ≤ 3 ≤ Z.of_nat (length ["h"; "i"; "010"]%byte)) by (cbn; lia).
  assert (Hl : Z.of_nat (length ["h"; "i"; "010"]%byte) ≤ SSZ_MAX)
    by (change SSZ_MAX with 9223372036854775807; cbn; lia).
  exact (conj ex_tx_drains (conj H (conj Hl
           (ns16550_out_translates ex_io_read ex_io_write true
              ["h"; "i"; "010"]%byte 3 ex_uart ex_tx_drains H Hl)))).
Defined.

(** The same run, evaluated: three polls are enough for each byte. *)
Example ex_uart_run :
  (λ p, (p.1, transmitted p.2)) <$>
    ns16550_out ex_io_read ex_io_write true 3
      (Some ["h"; "i"; "010"]%byte) 3 ex_uart =
  Some (3, [104; 105; 13; 10]).
Proof. vm_compute. reflexivity. Qed.

(** *** Where the specification and the code differ *)

(** C1, refuted. A fails with -1 on the first call; B is called all the same,
    for the same 4 bytes at the same position, and the read returns the 4
    bytes B delivered. *)
Lemma uk_console_in_abort_counterexample :
  (∃ w', uk_console_in ex_registry_failing (Some 0%nat) 4 ex_world = Some (4, w') ∧
         calls w' = [Call IN 1%positive 0%nat 4 (-1);
                     Call IN 2%positive 0%nat 4 4]) ∧
  ¬ in_aborts_on_negative ex_registry_failing 0%nat 4 ex_world.
Proof.
  assert (Hrun : ∃ w',
            uk_console_in ex_registry_failing (Some 0%nat) 4 ex_world = Some (4, w') ∧
            calls w' = [Call IN 1%positive 0%nat 4 (-1);
                        Call IN 2%positive 0%nat 4 4]).
  { eexists. split; vm_compute; reflexivity. }
  split; [exact Hrun|].
  destruct Hrun as (w' & Hrun & Hcalls). intros Habort.
  destruct (Habort 4 w' _ Hrun Hcalls 0%nat (Call IN 1%positive 0%nat 4 (-1)))
    as [Hlen _]; [reflexivity|cbn; lia|].
  discriminate Hlen.
Qed.

(** C7, refuted. D is not registered, yet a direct write to it reaches its
    [out] and returns what that returned. *)
Lemma direct_io_unregistered_counterexample :
  ¬ registered ex_registry (Some 4%positive) ∧
  (∃ w', uk_console_out_direct ex_registry (Some 4%positive) (Some 0%nat) 3 ex_world
           = Some (1, w') ∧
         calls w' = [Call OUT 4%positive 0%nat 3 1]) ∧
  ¬ out_direct_checks_registration ex_registry (Some 4%positive) (Some 0%nat) 3 ex_world.
Proof.
  assert (Hreg : ¬ registered ex_registry (Some 4%positive)).
  { intros (l & [= <-] & Hl). revert Hl.
    apply (bool_decide_unpack _). vm_compute. exact I. }
  split; [exact Hreg|]. split.
  - eexists. split; vm_compute; reflexivity.
  - intros [_ Hback].
    assert (Hc : uk_console_out_direct ex_registry (Some 4%positive) (Some 0%nat) 3
                   ex_world = Some (- EINVAL, ex_world)) by (apply Hback; auto).
    vm_compute in Hc. discriminate Hc.
Qed.

Lemma ex_many_length : length ex_many = Z.to_nat 65537.
Proof. unfold ex_many. rewrite length_fmap. apply length_seq. Qed.

Lemma ex_many_NoDup : NoDup ex_many.
Proof.
  unfold ex_many. apply NoDup_fmap_2_strong; [|apply NoDup_seq].
  intros x y _ _. apply SuccNat2Pos.inj.
Qed.

Lemma ex_many_in_store x :
  x ∈ ex_many →
  ∃ d, ex_many_store !! x = Some d ∧ is_Some (dev_ops d).
Proof.
  intros Hx. exists (ex_dev ex_ops 0). split; [|by eexists].
  apply lookup_gset_to_gmap_Some. split; [|reflexivity].
  by apply elem_of_list_to_set.
Qed.

(** C5, refuted. With 65537 distinct devices, after the first 65536
    registrations [uk_console_count] is 0, and the device registered next is
    given id 0, the id of the first. *)
Lemma register_ids_wrap_counterexample :
  NoDup ex_many ∧
  (∃ r, register_all (take (Z.to_nat 65536) ex_many) (registry_init ex_many_store)
          = Some r ∧
        uk_console_count r = 0) ∧
  (∃ r first last d d',
     register_all ex_many (registry_init ex_many_store) = Some r ∧
     ex_many !! 0%nat = Some first ∧
     ex_many !! Z.to_nat 65536 = Some last ∧
     first ≠ last ∧
     objs r !! first = Some d ∧ objs r !! last = Some d' ∧
     dev_id d = 0 ∧ dev_id d' = 0) ∧
  ¬ ids_and_count_unbounded ex_many_store ex_many.
Proof.
  pose proof ex_many_NoDup as Hnd. pose proof ex_many_length as Hlen.
  assert (Hpre : ∀ k, ∃ r,
            register_all (take k ex_many) (registry_init ex_many_store) = Some r).
  { intros k. apply register_all_succeeds.
    - rewrite <- (take_drop k ex_many) in Hnd. by apply NoDup_app in Hnd as [? _].
    - intros x Hx. split; [apply not_elem_of_nil|].
      apply elem_of_take in Hx as (i & Hi & _).
      apply ex_many_in_store. by eapply list_elem_of_lookup_2. }
  assert (Hcount : ∀ r,
            register_all (take (Z.to_nat 65536) ex_many) (registry_init ex_many_store)
              = Some r →
            uk_console_count r = 0).
  { intros r Hr.
    destruct (register_all_spec _ _ _ Hr eq_refl) as (_ & Hc & _).
    unfold uk_console_count. rewrite Hc, length_take_le by lia.
    cbn [registry_init uk_console_device_count].
    rewrite Z2Nat.id by lia. reflexivity. }
  split; [exact Hnd|]. split; [|split].
  - destruct (Hpre (Z.to_nat 65536)) as [r Hr]. exists r. split; [exact Hr|].
    by apply Hcount.
  - destruct (Hpre (length ex_many)) as [r Hr]. rewrite firstn_all in Hr.
    destruct (register_all_spec _ _ _ Hr eq_refl) as (_ & _ & _ & _ & _ & _ & Hat).
    assert (H0 : ex_many !! 0%nat = Some (Pos.of_succ_nat 0)).
    { unfold ex_many. rewrite list_lookup_fmap, lookup_seq_lt by lia. reflexivity. }
    assert (H1 : ex_many !! Z.to_nat 65536 = Some (Pos.of_succ_nat (Z.to_nat 65536))).
    { unfold ex_many. rewrite list_lookup_fmap, lookup_seq_lt by lia. reflexivity. }
    destruct (Hat _ _ H0) as (_ & d & _ & Hd & _ & Hid & _).
    destruct (Hat _ _ H1) as (_ & d' & _ & Hd' & _ & Hid' & _).
    exists r, (Pos.of_succ_nat 0), (Pos.of_succ_nat (Z.to_nat 65536)), d, d'.
    split; [exact Hr|]. split; [exact H0|]. split; [exact H1|].
    split; [intros Heq; apply SuccNat2Pos.inj in Heq; lia|].
    split; [exact Hd|]. split; [exact Hd'|].
    split; [exact Hid|].
    rewrite Hid'. cbn [registry_init uk_console_device_count].
    rewrite Z2Nat.id by lia. reflexivity.
  - intros Hclaim.
    destruct (Hclaim (Z.to_nat 65536)) as (r & Hr & Hc & _); [lia|].
    rewrite (Hcount r Hr), Z2Nat.id in Hc by lia. discriminate Hc.
Qed.

(** With nothing pending on any device, a read of 10 bytes asks A and B and
    returns 0. *)
Example ex_idle_read :
  (λ p, (p.1, call_ret <$> calls p.2)) <$>
    uk_console_in ex_registry (Some 0%nat) 10 ex_world_idle =
  Some (0, [0; 0]).
Proof. vm_compute. reflexivity. Qed.

(** *** Further properties at concrete inputs *)

Lemma uk_console_get_registered_witness :
  register_all ex_devs (registry_init ex_store) = Some ex_registry ∧
  0 ≤ 1 < 65536 ∧
  uk_console_get ex_registry 1 = Some (Some 2%positive).
Proof.
  assert (H : 0 ≤ 1 < 65536) by lia.
  exact (conj ex_registry_reached (conj H
           (uk_console_get_registered ex_store ex_devs ex_registry 1
              ex_registry_reached H))).
Defined.

(** An id that no device was given is not found. *)
Example ex_lookup_unassigned : uk_console_get ex_registry 7 = Some None.
Proof. vm_compute. reflexivity. Qed.

Lemma registration_frame_witness :
  register_all ex_devs (registry_init ex_store) = Some ex_registry ∧
  uk_console_device_list ex_registry = ex_devs ∧
  (∀ x, ex_store !! x = None → objs ex_registry !! x = None) ∧
  ∀ x d, ex_store !! x = Some d →
    ∃ d', objs ex_registry !! x = Some d' ∧
          dev_name d' = dev_name d ∧ dev_ops d' = dev_ops d ∧
          (x ∉ ex_devs → d' = d).
Proof.
  exact (conj ex_registry_reached
           (registration_frame ex_store ex_devs ex_registry ex_registry_reached)).
Defined.

Lemma register_ids_modular_witness :
  register_all ex_devs (registry_init ex_store) = Some ex_registry ∧
  uk_console_count ex_registry = Z.of_nat (length ex_devs) mod 65536 ∧
  ∀ i dev, ex_devs !! i = Some dev →
    ∃ d', objs ex_registry !! dev = Some d' ∧ dev_id d' = Z.of_nat i mod 65536.
Proof.
  exact (conj ex_registry_reached
           (register_ids_modular ex_store ex_devs ex_registry ex_registry_reached)).
Defined.

Lemma first_console_flagged_witness :
  register_all (1%positive :: [2%positive; 3%positive]) (registry_init ex_store)
    = Some ex_registry ∧
  uk_console_set_standard_once ex_registry ≠ 0 ∧
  ∃ d', objs ex_registry !! 1%positive = Some d' ∧ dev_flags d' ≠ 0.
Proof.
  exact (conj ex_registry_reached
           (first_console_flagged ex_store 1%positive [2%positive; 3%positive]
              ex_registry ex_registry_reached)).
Defined.

Lemma first_console_is_default_witness :
  register_all (1%positive :: [2%positive; 3%positive]) (registry_init ex_store)
    = Some ex_registry ∧
  ex_store !! 1%positive = Some (ex_dev ex_ops 0) ∧
  dev_flags (ex_dev ex_ops 0) = 0 ∧
  dev_ops (ex_dev ex_ops 0) = Some ex_ops ∧
  (∀ f, ops_out ex_ops = Some f →
        head (stdout_targets ex_registry) = Some (1%positive, f)) ∧
  (∀ f, ops_in ex_ops = Some f →
        head (stdin_sources ex_registry) = Some (1%positive, f)).
Proof.
  assert (Hs : ex_store !! 1%positive = Some (ex_dev ex_ops 0)) by reflexivity.
  exact (conj ex_registry_reached (conj Hs (conj eq_refl (conj eq_refl
           (first_console_is_default ex_store 1%positive [2%positive; 3%positive]
              ex_registry (ex_dev ex_ops 0) ex_ops
              ex_registry_reached Hs eq_refl eq_refl))))).
Defined.

Lemma uk_console_in_confined_witness :
  wf_registry ex_registry_failing ∧ 0 < 4 ∧
  ∃ rc w',
    uk_console_in ex_registry_failing (Some 2%nat) 4 ex_world = Some (rc, w') ∧
    length (mem w') = length (mem ex_world) ∧
    ∀ j, (j < 2 ∨ 2 + Z.to_nat 4 ≤ j)%nat → mem w' !! j = mem ex_world !! j.
Proof.
  assert (H : 0 < 4) by lia.
  exact (conj ex_registry_failing_wf (conj H
           (uk_console_in_confined ex_registry_failing 2%nat 4 ex_world
              ex_registry_failing_wf H))).
Defined.

(** A read of 4 bytes at offset 2: the two bytes before and the four after
    are as they were. *)
Example ex_confined_read :
  (λ p, (p.1, mem p.2)) <$>
    uk_console_in ex_registry (Some 2%nat) 4 ex_world =
  Some (4, ["h"; "i"; "a"; "b"; "c"; "d"; "."; "."; "."; "."]%byte).
Proof. vm_compute. reflexivity. Qed.

Lemma uk_console_in_requests_witness :
  wf_registry ex_registry_failing ∧ 0 < 4 ∧
  ∃ rc w' new,
    uk_console_in ex_registry_failing (Some 0%nat) 4 ex_world = Some (rc, w') ∧
    rc = to_ssz (sum_accepted new) ∧
    calls w' = calls ex_world ++ new ∧
    call_dev <$> new `prefix_of` (stdin_sources ex_registry_failing).*1 ∧
    Forall (suffix_request 0%nat 4) new ∧
    (sum_accepted new < 4 →
     length new = length (stdin_sources ex_registry_failing)).
Proof.
  assert (H : 0 < 4) by lia.
  exact (conj ex_registry_failing_wf (conj H
           (uk_console_in_requests ex_registry_failing 0%nat 4 ex_world
              ex_registry_failing_wf H))).
Defined.

Lemma uk_console_out_as_direct_witness :
  wf_registry ex_registry ∧ 3 ≠ 0 ∧
  uk_console_out ex_registry (Some 0%nat) 3 ex_world =
  (out_direct_each ex_registry (stdout_targets ex_registry).*1 (Some 0%nat) 3 ;;;
   io_ret (to_ssz 3)) ex_world.
Proof.
  assert (H : 3 ≠ 0) by discriminate.
  exact (conj ex_registry_wf (conj H
           (uk_console_out_as_direct ex_registry 0%nat 3 ex_world ex_registry_wf H))).
Defined.

Lemma no_default_device_witness :
  wf_registry (registry_init ex_store) ∧
  valid_buffer ex_world (Some 0%nat) 3 ∧ 3 ≠ 0 ∧
  (stdout_targets (registry_init ex_store) = [] →
   uk_console_out (registry_init ex_store) (Some 0%nat) 3 ex_world
     = Some (3, ex_world)) ∧
  (stdin_sources (registry_init ex_store) = [] →
   uk_console_in (registry_init ex_store) (Some 0%nat) 3 ex_world
     = Some (0, ex_world)).
Proof.
  assert (H : valid_buffer ex_world (Some 0%nat) 3) by (apply ex_world_buffer; lia).
  assert (Hnz : 3 ≠ 0) by discriminate.
  exact (conj (registry_init_wf ex_store) (conj H (conj Hnz
           (no_default_device (registry_init ex_store) 0%nat 3 ex_world
              (registry_init_wf ex_store) H Hnz)))).
Defined.

Lemma ns16550_in_bounds_witness :
  0 ≤ 4 ≤ SSZ_MAX ∧
  0 ≤ (ns16550_in ex_rx_read ex_rx_write 1%positive 4 ex_rx_uart).1.1 ≤ 4 ∧
  Z.of_nat (length (ns16550_in ex_rx_read ex_rx_write 1%positive 4 ex_rx_uart).1.2) =
    (ns16550_in ex_rx_read ex_rx_write 1%positive 4 ex_rx_uart).1.1 ∧
  (∃ ws,
     written (ns16550_in ex_rx_read ex_rx_write 1%positive 4 ex_rx_uart).2 =
       written ex_rx_uart ++ ws ∧
     lcr_clears_dlab ws) ∧
  transmitted (ns16550_in ex_rx_read ex_rx_write 1%positive 4 ex_rx_uart).2 =
    transmitted ex_rx_uart ∧
  (Z.land (ex_rx_read NS16550_LSR_OFFSET (hw ex_rx_uart)).1 NS16550_LSR_RX_EMPTY = 0 →
   (ns16550_in ex_rx_read ex_rx_write 1%positive 4 ex_rx_uart).1 = (0, []) ∧
   written (ns16550_in ex_rx_read ex_rx_write 1%positive 4 ex_rx_uart).2 =
     written ex_rx_uart).
Proof.
  assert (H : 0 ≤ 4 ≤ SSZ_MAX)
    by (change SSZ_MAX with 9223372036854775807; lia).
  exact (conj H (ns16550_in_bounds ex_rx_read ex_rx_write 1%positive 4 ex_rx_uart H)).
Defined.

(** The receiver holds "hi": a read of 4 bytes returns 2 and those bytes,
    after two stores that clear DLAB. *)
Example ex_rx_run :
  (λ p, (p.1, written p.2)) (ns16550_in ex_rx_read ex_rx_write 1%positive 4 ex_rx_uart) =
  ((2, ["h"; "i"]%byte), [(3, 3); (3, 3)]).
Proof. vm_compute. reflexivity. Qed.

Lemma ns16550_out_clears_dlab_witness :
  tx_drains ex_io_read ∧
  0 ≤ 3 ≤ Z.of_nat (length ["h"; "i"; "010"]%byte) ∧
  ∃ fuel0 dev' ws, ∀ fuel, (fuel0 ≤ fuel)%nat →
    ns16550_out ex_io_read ex_io_write true fuel
      (Some ["h"; "i"; "010"]%byte) 3 ex_uart = Some (to_ssz 3, dev') ∧
    written dev' = written ex_uart ++ ws ∧
    thr_guarded ws.
Proof.
  assert (H : 0 ≤ 3 ≤ Z.of_nat (length ["h"; "i"; "010"]%byte)) by (cbn; lia).
  exact (conj ex_tx_drains (conj H
           (ns16550_out_clears_dlab ex_io_read ex_io_write true
              ["h"; "i"; "010"]%byte 3 ex_uart ex_tx_drains H))).
Defined.

Lemma ns16550_out_wire_length_witness :
  tx_drains ex_io_read ∧
  0 ≤ 3 ≤ Z.of_nat (length ["h"; "i"; "010"]%byte) ∧
  ∃ fuel0 dev', ∀ fuel, (fuel0 ≤ fuel)%nat →
    ns16550_out ex_io_read ex_io_write true fuel
      (Some ["h"; "i"; "010"]%byte) 3 ex_uart = Some (to_ssz 3, dev') ∧
    length (transmitted dev') = (length (transmitted ex_uart) + Z.to_nat 3 + 1)%nat.
Proof.
  assert (H : 0 ≤ 3 ≤ Z.of_nat (length ["h"; "i"; "010"]%byte)) by (cbn; lia).
  exact (conj ex_tx_drains (conj H
           (ns16550_out_wire_length ex_io_read ex_io_write true
              ["h"; "i"; "010"]%byte 3 ex_uart ex_tx_drains H))).
Defined.

Lemma ex_tx_stuck : tx_stuck ex_stuck_read.
Proof. intros h. reflexivity. Qed.

Lemma ns16550_out_blocks_witness :
  tx_stuck ex_stuck_read ∧ 0 < 3 ∧
  ns16550_out ex_stuck_read ex_stuck_write true 1000
    (Some ["h"; "i"; "010"]%byte) 3 {| hw := tt; written := [] |} = None.
Proof.
  assert (H : 0 < 3) by lia.
  exact (conj ex_tx_stuck (conj H
           (ns16550_out_blocks ex_stuck_read ex_stuck_write true 1000%nat
              "h"%byte ["i"; "010"]%byte 3 {| hw := tt; written := [] |}
              ex_tx_stuck H))).
Defined.
